(** * webxr-playground: day-night cycle, terrain, trees, fireflies, player
    hands and ambient audio, embedded in Rocq.

  Number model.  Every JavaScript number of the program is a double; the
  development idealises doubles as real numbers ([R]): no rounding, no
  NaN, no infinities.  The operators whose JavaScript meaning differs from
  the usual mathematical one are written out in module [JS]: [%] is the
  truncating remainder (the result has the sign of the dividend),
  [Math.floor] rounds towards minus infinity.

  Effects.  [Math.random()] reads an explicit random source that is
  threaded through the code ([Rand]); [Date.now()] is an explicit clock
  reading handed to the function that calls it. *)

From Stdlib Require Import Reals Lra Lia ZArith List Bool.
Import ListNotations.
Local Open Scope R_scope.

(* ================================================================== *)
(** ** JavaScript arithmetic on idealised numbers *)
(* ================================================================== *)

Module JS.

(** [Math.floor]. *)
Definition floor (x : R) : Z := Int_part x.

(** Rounding towards zero, the quotient that [%] uses. *)
Definition trunc (x : R) : Z :=
  if Rle_dec 0 x then Int_part x else (- Int_part (- x))%Z.

(** [a % b]: [a - b * trunc (a / b)]. *)
Definition rem (a b : R) : R := a - b * IZR (trunc (a / b)).

(** Comparisons, as booleans. *)
Definition ltb (a b : R) : bool := if Rlt_dec a b then true else false.
Definition gtb (a b : R) : bool := ltb b a.

(** [Math.max], [Math.min]. *)
Definition max (a b : R) : R := Rmax a b.
Definition min (a b : R) : R := Rmin a b.

(** [arr[i]] for an integer-valued number [i]: [undefined] out of range. *)
Definition get {A : Type} (arr : list A) (i : Z) : option A :=
  if (i <? 0)%Z then None else nth_error arr (Z.to_nat i).

End JS.

(* ================================================================== *)
(** ** The random source *)
(* ================================================================== *)

(** The sequence of values that successive calls of [Math.random()] will
  return. *)
Definition RandomSource : Type := nat -> R.

(** A computation that may call [Math.random()]. *)
Definition Rand (A : Type) : Type := RandomSource -> A * RandomSource.

Definition ret {A : Type} (a : A) : Rand A := fun rs => (a, rs).

Definition bind {A B : Type} (m : Rand A) (k : A -> Rand B) : Rand B :=
  fun rs => let (a, rs') := m rs in k a rs'.

(** [Math.random()]. *)
Definition random : Rand R := fun rs => (rs 0%nat, fun n => rs (S n)).

Declare Scope rand_scope.
Delimit Scope rand_scope with rand.
Notation "x <- m ;; k" := (bind m (fun x => k))
  (at level 61, m at next level, right associativity) : rand_scope.

(** The source after [n] draws. *)
Definition skip (n : nat) (rs : RandomSource) : RandomSource :=
  fun k => rs (n + k)%nat.

(** A random source whose draws are all [0]. *)
Definition zeros : RandomSource := fun _ => 0.

(** What [Math.random()] promises: every draw is in [[0, 1)]. *)
Definition in_unit (rs : RandomSource) : Prop := forall n, 0 <= rs n < 1.

(* ================================================================== *)
(** ** The part of three.js the program relies on *)
(* ================================================================== *)

Module THREE.

Record Vector3 : Type := mkVector3 { x : R; y : R; z : R }.

Record Quaternion : Type :=
  mkQuaternion { qx : R; qy : R; qz : R; qw : R }.

Record Color : Type := mkColor { r : R; g : R; b : R }.

(** [new THREE.Color(hex)]: one byte per channel, scaled to [0,1], as
  three.js does without colour management; releases that manage colours
  also convert the channels from sRGB to linear. *)
Definition ColorHex (hex : Z) : Color :=
  mkColor (IZR (Z.land (Z.shiftr hex 16) 255) / 255)
          (IZR (Z.land (Z.shiftr hex 8) 255) / 255)
          (IZR (Z.land hex 255) / 255).

(** [c.lerp(color, alpha)]. *)
Definition lerp (c color : Color) (alpha : R) : Color :=
  mkColor (r c + (r color - r c) * alpha)
          (g c + (g color - g c) * alpha)
          (b c + (b color - b c) * alpha).

(** [v.add(w)]. *)
Definition add (v w : Vector3) : Vector3 :=
  mkVector3 (x v + x w) (y v + y w) (z v + z w).

(** [v.multiplyScalar(s)]. *)
Definition multiplyScalar (v : Vector3) (s : R) : Vector3 :=
  mkVector3 (x v * s) (y v * s) (z v * s).

(** [v.lengthSq()] and [v.length()]. *)
Definition lengthSq (v : Vector3) : R := x v * x v + y v * y v + z v * z v.
Definition length (v : Vector3) : R := sqrt (lengthSq v).

(** [v.normalize()]: [v.divideScalar(v.length() || 1)], where
  [divideScalar(s)] is [multiplyScalar(1 / s)]. *)
Definition normalize (v : Vector3) : Vector3 :=
  multiplyScalar v (1 / (if Req_dec_T (length v) 0 then 1 else length v)).

(** [new THREE.Vector3().crossVectors(a, b)]. *)
Definition crossVectors (a b : Vector3) : Vector3 :=
  mkVector3 (y a * z b - z a * y b)
            (z a * x b - x a * z b)
            (x a * y b - y a * x b).

End THREE.


(* ================================================================== *)
(** ** The day-night cycle controller ([setupDayNightCycle]) *)
(* ================================================================== *)

Module DayNight.

(** [cycleParams]. *)
Record CycleParams : Type := mkCycleParams {
  dayDuration : R;
  timeOfDay : R;
  paused : bool;
  daySkyTop : THREE.Color;
  daySkyBottom : THREE.Color;
  nightSkyTop : THREE.Color;
  nightSkyBottom : THREE.Color;
  dayLightColor : THREE.Color;
  nightLightColor : THREE.Color;
  dayLightIntensity : R;
  nightLightIntensity : R;
  dayAmbientColor : THREE.Color;
  nightAmbientColor : THREE.Color;
  dayAmbientIntensity : R;
  nightAmbientIntensity : R
}.

(** [cycleParams.timeOfDay = v]. *)
Definition set_timeOfDay (v : R) (p : CycleParams) : CycleParams :=
  mkCycleParams (dayDuration p) v (paused p)
    (daySkyTop p) (daySkyBottom p) (nightSkyTop p) (nightSkyBottom p)
    (dayLightColor p) (nightLightColor p)
    (dayLightIntensity p) (nightLightIntensity p)
    (dayAmbientColor p) (nightAmbientColor p)
    (dayAmbientIntensity p) (nightAmbientIntensity p).

(** [cycleParams.paused = v]. *)
Definition set_paused (v : bool) (p : CycleParams) : CycleParams :=
  mkCycleParams (dayDuration p) (timeOfDay p) v
    (daySkyTop p) (daySkyBottom p) (nightSkyTop p) (nightSkyBottom p)
    (dayLightColor p) (nightLightColor p)
    (dayLightIntensity p) (nightLightIntensity p)
    (dayAmbientColor p) (nightAmbientColor p)
    (dayAmbientIntensity p) (nightAmbientIntensity p).

(** [cycleParams.dayDuration = v]. *)
Definition set_dayDuration (v : R) (p : CycleParams) : CycleParams :=
  mkCycleParams v (timeOfDay p) (paused p)
    (daySkyTop p) (daySkyBottom p) (nightSkyTop p) (nightSkyBottom p)
    (dayLightColor p) (nightLightColor p)
    (dayLightIntensity p) (nightLightIntensity p)
    (dayAmbientColor p) (nightAmbientColor p)
    (dayAmbientIntensity p) (nightAmbientIntensity p).

(** The literal that initialises [cycleParams]. *)
Definition cycleParams0 : CycleParams :=
  mkCycleParams 240 (5 / 10) false
    (THREE.ColorHex 0x1a8cff) (THREE.ColorHex 0xa6e6ff)
    (THREE.ColorHex 0x000033) (THREE.ColorHex 0x000066)
    (THREE.ColorHex 0xffffcc) (THREE.ColorHex 0x3a3a6a)
    (25 / 10) (5 / 10)
    (THREE.ColorHex 0x606060) (THREE.ColorHex 0x202040)
    (15 / 10) (5 / 10).

(** A [THREE.DirectionalLight]: the fields the controller writes. *)
Record DirectionalLight : Type := mkDirectionalLight {
  position : THREE.Vector3;
  intensity : R;
  color : THREE.Color
}.

(** A [THREE.AmbientLight]. *)
Record AmbientLight : Type := mkAmbientLight {
  ambientIntensity : R;
  ambientColor : THREE.Color
}.

(** The sky dome's shader uniforms: a slot is [None] when the material has
  no uniform of that name, else it holds the uniform's [value]. *)
Record SkyDome : Type := mkSkyDome {
  topColor : option THREE.Color;
  bottomColor : option THREE.Color
}.

(** The star field: [visible], and [material.opacity] when it has a
  material. *)
Record Stars : Type := mkStars {
  visible : bool;
  material : option R
}.

Section VisualSun.

(** The transform of a child of the visual sun, and three.js's
  [child.lookAt(tx, ty, tz)], which depends on where the parent is. *)
Variable Object3D : Type.
Variable lookAt : THREE.Vector3 -> Object3D -> THREE.Vector3 -> Object3D.

(** A child of the visual sun: its transform, and [material.opacity] when
  it has a material. *)
Record SunChild : Type := mkSunChild {
  object : Object3D;
  childMaterial : option R
}.

(** [sunLight.parent.userData.sky.userData.sun]. *)
Record VisualSun : Type := mkVisualSun {
  sunPosition : THREE.Vector3;
  sunChildren : list SunChild;
  sunVisible : bool
}.

(** Everything the controller's closure reaches: [cycleParams], the
  lights, the sky dome found in the scene (if any), the stars and the
  visual sun (if the chain of properties leading to it exists). *)
Record State : Type := mkState {
  params : CycleParams;
  sunLight : DirectionalLight;
  moonLight : DirectionalLight;
  ambientLight : AmbientLight;
  skyDome : option SkyDome;
  stars : option Stars;
  visualSun : option VisualSun
}.

Definition set_params (p : CycleParams) (s : State) : State :=
  mkState p (sunLight s) (moonLight s) (ambientLight s)
    (skyDome s) (stars s) (visualSun s).

(** [light.position.set(px, py, pz)]. *)
Definition set_position (v : THREE.Vector3) (l : DirectionalLight)
  : DirectionalLight :=
  mkDirectionalLight v (intensity l) (color l).

(** [updateSunPosition(sunLight, moonLight, timeOfDay)]. *)
Definition updateSunPosition (sun moon : DirectionalLight)
    (vs : option VisualSun) (timeOfDay : R)
  : DirectionalLight * DirectionalLight * option VisualSun :=
  let sunAngle := timeOfDay * PI * 2 in
  let sunX := cos sunAngle in
  let sunY := sin sunAngle in
  let sun' := set_position (THREE.mkVector3 (sunX * 5) (sunY * 10) 1) sun in
  let moon' :=
    set_position (THREE.mkVector3 (- sunX * 5) (- sunY * 10) (-1)) moon in
  let vs' :=
    match vs with
    | Some visualSun =>
        let radius := 300 in
        let visualSunX := cos sunAngle * radius in
        let visualSunY := JS.max 0 (sin sunAngle * radius) in
        let visualSunZ := sin (sunAngle + PI * (5 / 10)) * radius in
        let pos := THREE.mkVector3 visualSunX visualSunY visualSunZ in
        let facing :=
          map (fun child =>
                 mkSunChild (lookAt pos (object child) (THREE.mkVector3 0 0 0))
                            (childMaterial child))
              (sunChildren visualSun) in
        let sunHeight := sin sunAngle in
        let opacity := JS.max 0 (JS.min 1 ((sunHeight + 2 / 10) * 2)) in
        let faded :=
          map (fun child =>
                 match childMaterial child with
                 | Some _ => mkSunChild (object child) (Some opacity)
                 | None => child
                 end)
              facing in
        Some (mkVisualSun pos faded (JS.gtb sunHeight (- (2 / 10))))
    | None => None
    end in
  (sun', moon', vs').

(** [updateLighting(sunLight, moonLight, ambientLight, params)]. *)
Definition updateLighting (sun moon : DirectionalLight) (amb : AmbientLight)
    (p : CycleParams) : DirectionalLight * DirectionalLight * AmbientLight :=
  let dayFactor := JS.max 0 (sin (timeOfDay p * PI * 2)) in
  let nightFactor := 1 - dayFactor in
  let sun' :=
    mkDirectionalLight (position sun) (dayLightIntensity p * dayFactor)
                       (dayLightColor p) in
  let moon' :=
    mkDirectionalLight (position moon) (nightLightIntensity p * nightFactor)
                       (nightLightColor p) in
  let amb' :=
    mkAmbientLight
      (dayAmbientIntensity p * dayFactor + nightAmbientIntensity p * nightFactor)
      (THREE.lerp (dayAmbientColor p) (nightAmbientColor p) nightFactor) in
  (sun', moon', amb').

(** [updateSkyColors(skyDome, params)]. *)
Definition updateSkyColors (dome : option SkyDome) (p : CycleParams)
  : option SkyDome :=
  match dome with
  | None => None
  | Some uniforms =>
      let dayFactor := JS.max 0 (sin (timeOfDay p * PI * 2)) in
      let nightFactor := 1 - dayFactor in
      let top := THREE.lerp (daySkyTop p) (nightSkyTop p) nightFactor in
      let bottom := THREE.lerp (daySkyBottom p) (nightSkyBottom p) nightFactor in
      Some (mkSkyDome
              (match topColor uniforms with
               | Some _ => Some top | None => None end)
              (match bottomColor uniforms with
               | Some _ => Some bottom | None => None end))
  end.

(** [updateStars(stars, timeOfDay)]. *)
Definition updateStars (st : option Stars) (timeOfDay : R) : option Stars :=
  match st with
  | None => None
  | Some s =>
      let dayFactor := JS.max 0 (sin (timeOfDay * PI * 2)) in
      Some (mkStars (JS.ltb dayFactor (1 / 10))
                    (match material s with
                     | Some _ => Some (JS.max 0 (1 / 10 - dayFactor) / (1 / 10))
                     | None => None
                     end))
  end.

(** [setupDayNightCycle(scene, sunLight)]: the state the returned controller
  starts from.  [dome] is the sky dome that the traversal of the scene
  finds, [vs] the visual sun.  The geometry of the stars is left out. *)
Definition setupDayNightCycle (sun : DirectionalLight) (dome : option SkyDome)
    (vs : option VisualSun) : State :=
  mkState cycleParams0 sun
    (mkDirectionalLight (THREE.mkVector3 (-1) 1 (-1)) 0
                        (nightLightColor cycleParams0))
    (mkAmbientLight (dayAmbientIntensity cycleParams0)
                    (dayAmbientColor cycleParams0))
    dome
    (Some (mkStars false (Some 0)))
    vs.

(** [update(delta)]. *)
Definition update (delta : R) (s : State) : State :=
  if paused (params s) then s
  else
    let p :=
      set_timeOfDay
        (JS.rem (timeOfDay (params s) + delta / dayDuration (params s)) 1)
        (params s) in
    let '(sun1, moon1, vs) :=
      updateSunPosition (sunLight s) (moonLight s) (visualSun s)
                        (timeOfDay p) in
    let '(sun2, moon2, amb) := updateLighting sun1 moon1 (ambientLight s) p in
    mkState p sun2 moon2 amb
      (updateSkyColors (skyDome s) p)
      (updateStars (stars s) (timeOfDay p))
      vs.

(** [getTimeOfDay()]. *)
Definition getTimeOfDay (s : State) : R := timeOfDay (params s).

(** [setTimeOfDay(time)]. *)
Definition setTimeOfDay (time : R) (s : State) : State :=
  set_params (set_timeOfDay (JS.rem time 1) (params s)) s.

(** [togglePause()]: the returned value and the new state. *)
Definition togglePause (s : State) : bool * State :=
  let s' := set_params (set_paused (negb (paused (params s))) (params s)) s in
  (paused (params s'), s').

(** [setCycleSpeed(durationInSeconds)]. *)
Definition setCycleSpeed (durationInSeconds : R) (s : State) : State :=
  if JS.gtb durationInSeconds 0
  then set_params (set_dayDuration durationInSeconds (params s)) s
  else s.

(** The states a controller goes through: the one [setupDayNightCycle]
  returns, and those its methods lead to. *)
Inductive Reachable : State -> Prop :=
| reach_setup (sun : DirectionalLight) (dome : option SkyDome)
    (vs : option VisualSun) :
    Reachable (setupDayNightCycle sun dome vs)
| reach_update (delta : R) (s : State) :
    Reachable s -> Reachable (update delta s)
| reach_setTimeOfDay (time : R) (s : State) :
    Reachable s -> Reachable (setTimeOfDay time s)
| reach_togglePause (s : State) :
    Reachable s -> Reachable (snd (togglePause s))
| reach_setCycleSpeed (durationInSeconds : R) (s : State) :
    Reachable s -> Reachable (setCycleSpeed durationInSeconds s).

End VisualSun.

Arguments set_params {Object3D} _ _.
Arguments params {Object3D} _.
Arguments sunLight {Object3D} _.
Arguments moonLight {Object3D} _.
Arguments ambientLight {Object3D} _.
Arguments skyDome {Object3D} _.
Arguments stars {Object3D} _.
Arguments visualSun {Object3D} _.
Arguments getTimeOfDay {Object3D} _.
Arguments setTimeOfDay {Object3D} _ _.
Arguments togglePause {Object3D} _.
Arguments setCycleSpeed {Object3D} _ _.
Arguments update {Object3D} _ _ _.
Arguments setupDayNightCycle {Object3D} _ _ _.

End DayNight.

(* ================================================================== *)
(** ** Ambient audio ([audio.js]) *)
(* ================================================================== *)

Module Audio.

(** A [THREE.Audio] or [THREE.PositionalAudio]: the fields the module reads
  and writes.  [buffer] tells whether a buffer has been assigned. *)
Record AudioSource : Type := mkAudioSource {
  volume : R;
  loop : bool;
  buffer : bool;
  isPlaying : bool
}.

(** [source.setVolume(v)]. *)
Definition setVolume (v : R) (a : AudioSource) : AudioSource :=
  mkAudioSource v (loop a) (buffer a) (isPlaying a).

(** [source.setBuffer(buffer)]. *)
Definition setBuffer (a : AudioSource) : AudioSource :=
  mkAudioSource (volume a) (loop a) true (isPlaying a).

(** [source.play()]. *)
Definition play (a : AudioSource) : AudioSource :=
  mkAudioSource (volume a) (loop a) (buffer a) true.

(** ['day'] or ['night']. *)
Inductive DayNightState : Type := day | night.

Definition DayNightState_eqb (a b : DayNightState) : bool :=
  match a, b with
  | day, day | night, night => true
  | _, _ => false
  end.

(** The module's variables: [audioSources] (a missing property is [None])
  and [dayNightState]. *)
Record State : Type := mkState {
  birds : option AudioSource;
  wind : option AudioSource;
  nightSource : option AudioSource;
  footsteps : option AudioSource;
  dayNightState : DayNightState
}.

(** The module as loaded: [audioSources = {}], [dayNightState = 'day']. *)
Definition initial : State := mkState None None None None day.

(** [createAudioSources()]. *)
Definition createAudioSources (s : State) : State :=
  mkState (Some (mkAudioSource (5 / 10) true false false))
          (Some (mkAudioSource (3 / 10) true false false))
          (Some (mkAudioSource 0 true false false))
          (Some (mkAudioSource (7 / 10) false false false))
          (dayNightState s).

(** [createPlaceholderAudioFiles()]: every source gets the empty buffer. *)
Definition createPlaceholderAudioFiles (s : State) : State :=
  mkState (option_map setBuffer (birds s))
          (option_map setBuffer (wind s))
          (option_map setBuffer (nightSource s))
          (option_map setBuffer (footsteps s))
          (dayNightState s).

(** [if (source.buffer) source.play()]. *)
Definition playIfBuffered (a : AudioSource) : AudioSource :=
  if buffer a then play a else a.

(** [playAmbientAudio()]. *)
Definition playAmbientAudio (s : State) : State :=
  mkState (option_map playIfBuffered (birds s))
          (option_map playIfBuffered (wind s))
          (option_map playIfBuffered (nightSource s))
          (footsteps s)
          (dayNightState s).

(** [setupAudio(camera)]. *)
Definition setupAudio (s : State) : State :=
  playAmbientAudio (createPlaceholderAudioFiles (createAudioSources s)).

(** [updateAudioForTimeOfDay(timeOfDay)]. *)
Definition updateAudioForTimeOfDay (timeOfDay : R) (s : State) : State :=
  match birds s, nightSource s with
  | Some b, Some n =>
      let dayFactor := JS.max 0 (sin (timeOfDay * PI * 2)) in
      let nightFactor := 1 - dayFactor in
      let newState := if JS.gtb dayFactor (3 / 10) then day else night in
      let b' := if isPlaying b then setVolume (5 / 10 * dayFactor) b else b in
      let n' := if isPlaying n then setVolume (5 / 10 * nightFactor) n else n in
      mkState (Some b') (wind s) (Some n') (footsteps s)
              (if negb (DayNightState_eqb newState (dayNightState s))
               then newState else dayNightState s)
  | _, _ => s
  end.

(** [playFootstepSounds(isMoving)]. *)
Definition playFootstepSounds (isMoving : bool) (s : State) : State :=
  match footsteps s with
  | None => s
  | Some f =>
      if negb (buffer f) then s
      else if isMoving && negb (isPlaying f)
           then mkState (birds s) (wind s) (nightSource s) (Some (play f))
                        (dayNightState s)
           else s
  end.

(** [adjustWindForElevation(elevation)]. *)
Definition adjustWindForElevation (elevation : R) (s : State) : State :=
  match wind s with
  | None => s
  | Some w =>
      let baseVolume := 3 / 10 in
      let elevationFactor := JS.max 0 (JS.min 1 (elevation / 20)) in
      let windVolume := baseVolume + elevationFactor * (4 / 10) in
      mkState (birds s) (Some (setVolume windVolume w)) (nightSource s)
              (footsteps s) (dayNightState s)
  end.

End Audio.

(* ================================================================== *)
(** ** The player's hands ([player.js]) *)
(* ================================================================== *)

Module Player.

(** A hand model: the fields of the [THREE.Group] that the player code
  sets. *)
Record Hand : Type := mkHand {
  visible : bool;
  position : THREE.Vector3;
  quaternion : THREE.Quaternion;
  scale : THREE.Vector3
}.

(** A tracked controller: its pose. *)
Record Controller : Type := mkController {
  controllerPosition : THREE.Vector3;
  controllerQuaternion : THREE.Quaternion
}.

(** The object [createPlayer] returns: the two hands. *)
Record Player : Type := mkPlayer {
  leftHand : Hand;
  rightHand : Hand
}.

(** [createHandModel(isLeft)]: a visible group at the origin, rotated by
  [-PI / 2] about the x axis, mirrored for the left hand. *)
Definition createHandModel (isLeft : bool) : Hand :=
  mkHand true
         (THREE.mkVector3 0 0 0)
         (THREE.mkQuaternion (sin (- PI / 2 / 2)) 0 0 (cos (- PI / 2 / 2)))
         (THREE.mkVector3 (if isLeft then -1 else 1) 1 1).

(** [hand.visible = false]. *)
Definition hide (h : Hand) : Hand :=
  mkHand false (position h) (quaternion h) (scale h).

(** [hand.visible = true; hand.position.copy(c.position);
   hand.quaternion.copy(c.quaternion)]. *)
Definition follow (c : Controller) (h : Hand) : Hand :=
  mkHand true (controllerPosition c) (controllerQuaternion c) (scale h).

(** [createPlayer()]. *)
Definition createPlayer : Player :=
  mkPlayer (hide (createHandModel true)) (hide (createHandModel false)).

(** [updateHands(controllers)]. *)
Definition updateHands (controllers : list Controller) (p : Player) : Player :=
  let left :=
    if (0 <? length controllers)%nat
    then match nth_error controllers 0 with
         | Some c => follow c (leftHand p)
         | None => leftHand p
         end
    else leftHand p in
  let right :=
    if (1 <? length controllers)%nat
    then match nth_error controllers 1 with
         | Some c => follow c (rightHand p)
         | None => rightHand p
         end
    else rightHand p in
  mkPlayer left right.

(** The hand that mirrors the controller at index [i]. *)
Definition hand (i : nat) (p : Player) : option Hand :=
  match i with
  | 0%nat => Some (leftHand p)
  | 1%nat => Some (rightHand p)
  | _ => None
  end.

(** Whether the hand at index [i] is shown. *)
Definition shown (i : nat) (p : Player) : bool :=
  match hand i p with
  | Some h => visible h
  | None => false
  end.

(** The player after a sequence of frames, one controller list per
  frame. *)
Definition frames (fs : list (list Controller)) (p : Player) : Player :=
  fold_left (fun q controllers => updateHands controllers q) fs p.

(** The pose at index [i] of the last frame that had one. *)
Fixpoint lastPose (i : nat) (fs : list (list Controller)) : option Controller :=
  match fs with
  | [] => None
  | controllers :: rest =>
      match lastPose i rest with
      | Some c => Some c
      | None => nth_error controllers i
      end
  end.

End Player.

(* ================================================================== *)
(** ** Terrain height map, colours and fireflies *)
(* ================================================================== *)

Module Terrain.

Section HeightMap.

(** [noise.noise(x, y)] of the [SimplexNoise] instance the function
  creates. *)
Variable noise : R -> R -> R.

(** The elevation that the three octaves give at [(x, z)]. *)
Definition octaves (x z intensity : R) : R :=
  let noise1 := noise (x * (1 / 100)) (z * (1 / 100)) * (5 / 10) in
  let noise2 := noise (x * (5 / 100)) (z * (5 / 100)) * (25 / 100) in
  let noise3 := noise (x * (2 / 10)) (z * (2 / 10)) * (125 / 1000) in
  (noise1 + noise2 + noise3) * intensity.

(** The loop of [applyHeightMap] over the position buffer, three numbers
  per vertex.  A position buffer holds whole vertices; a shorter tail is
  left as it is. *)
Fixpoint applyHeightMap (vertices : list R) (intensity : R)
  : Rand (list R) :=
  match vertices with
  | x :: _ :: z :: rest =>
      (u <- random ;;
       let height := octaves x z intensity in
       let height' :=
         if JS.gtb u (97 / 100) then height * (1 / 10) else height in
       rest' <- applyHeightMap rest intensity ;;
       ret (x :: height' :: z :: rest'))%rand
  | _ => ret vertices
  end.

End HeightMap.

(** The base colours of [applyTerrainColors]. *)
Definition grassColor : THREE.Color := THREE.ColorHex 0x3b7d4e.
Definition darkGrassColor : THREE.Color := THREE.ColorHex 0x2d5d3b.
Definition dirtColor : THREE.Color := THREE.ColorHex 0x8B4513.

(** The branch [height < 0]: dirt mixed with dark grass. *)
Definition lowAreaColor : Rand THREE.Color :=
  (u <- random ;;
   ret (THREE.lerp dirtColor darkGrassColor (3 / 10 + u * (3 / 10))))%rand.

(** The branch [height < 2]: grass with a jitter on each channel. *)
Definition regularGrassColor : Rand THREE.Color :=
  (ur <- random ;;
   ug <- random ;;
   ub <- random ;;
   ret (THREE.mkColor (THREE.r grassColor + (ur - 5 / 10) * (1 / 10))
                      (THREE.g grassColor + (ug - 5 / 10) * (1 / 10))
                      (THREE.b grassColor + (ub - 5 / 10) * (1 / 10))))%rand.

(** The last branch: grass blended towards a lighter tone. *)
Definition highAreaColor (height : R) : Rand THREE.Color :=
  ret (THREE.lerp grassColor (THREE.ColorHex 0x7cad6d)
                  (JS.min 1 ((height - 2) / 3))).

(** The colour that one iteration of the loop of [applyTerrainColors]
  chooses for a vertex at [height]. *)
Definition vertexColor (height : R) : Rand THREE.Color :=
  if JS.ltb height 0 then lowAreaColor
  else if JS.ltb height 2 then regularGrassColor
  else highAreaColor height.

(** The loop of [applyTerrainColors]: the [colors] array it builds. *)
Fixpoint applyTerrainColors (positions : list R) : Rand (list R) :=
  match positions with
  | _ :: height :: _ :: rest =>
      (color <- vertexColor height ;;
       colors <- applyTerrainColors rest ;;
       ret (THREE.r color :: THREE.g color :: THREE.b color :: colors))%rand
  | _ => ret []
  end.

(** The loop of [createLowPolyPlane] over the position buffer of the
  plane, from array index [i] on: the vertices whose array index is a
  multiple of [9] get a random offset in x and z.  A position buffer holds
  whole vertices; a shorter tail is left as it is. *)
Fixpoint randomizeVertices (i : nat) (vertices : list R) : Rand (list R) :=
  match vertices with
  | x :: y :: z :: rest =>
      if (i mod 9 =? 0)%nat
      then
        (u1 <- random ;;
         u2 <- random ;;
         rest' <- randomizeVertices (i + 3) rest ;;
         ret (x + (u1 - 5 / 10) * (5 / 10) :: y
                :: z + (u2 - 5 / 10) * (5 / 10) :: rest'))%rand
      else
        (rest' <- randomizeVertices (i + 3) rest ;;
         ret (x :: y :: z :: rest'))%rand
  | _ => ret vertices
  end.

(** [createLowPolyPlane], given the position buffer of the
  [THREE.PlaneGeometry] it creates. *)
Definition createLowPolyPlane (planeVertices : list R) : Rand (list R) :=
  randomizeVertices 0 planeVertices.

(** The random ground vertex that [addGrassPatches], [addGlowingMushrooms]
  and [addGlowingCrystals] read: [groundVertexCount] is
  [groundVertices.length / 3], [randomIndex] is
  [Math.floor(Math.random() * groundVertexCount) * 3], and the three reads
  are [undefined] out of range. *)
Definition randomGroundVertex (groundVertices : list R)
  : Rand (option R * option R * option R) :=
  (u <- random ;;
   let groundVertexCount := INR (List.length groundVertices) / 3 in
   let randomIndex := (JS.floor (u * groundVertexCount) * 3)%Z in
   ret (JS.get groundVertices randomIndex,
        JS.get groundVertices (randomIndex + 1)%Z,
        JS.get groundVertices (randomIndex + 2)%Z))%rand.

End Terrain.

Module Fireflies.

(** [firefly.userData]. *)
Record UserData : Type := mkUserData {
  originalY : R;
  originalX : R;
  originalZ : R;
  speed : R;
  phase : R
}.

(** A firefly mesh: the fields the animation writes, and its user data. *)
Record Firefly : Type := mkFirefly {
  position : THREE.Vector3;
  scale : THREE.Vector3;
  userData : UserData
}.

(** One firefly of the loop of [addFireflies]. *)
Definition createFirefly : Rand Firefly :=
  (u1 <- random ;;
   let radius := 40 + u1 * 30 in
   u2 <- random ;;
   let angle := u2 * PI * 2 in
   u3 <- random ;;
   let height := 5 / 10 + u3 * 5 in
   let p := THREE.mkVector3 (cos angle * radius) height (sin angle * radius) in
   u4 <- random ;;
   u5 <- random ;;
   ret (mkFirefly p (THREE.mkVector3 1 1 1)
          (mkUserData (THREE.y p) (THREE.x p) (THREE.z p)
                      (2 / 10 + u4 * (5 / 10)) (u5 * PI * 2))))%rand.

(** [fireflies.children] after [count] iterations of that loop. *)
Fixpoint createFireflies (count : nat) : Rand (list Firefly) :=
  match count with
  | O => ret []
  | S n =>
      (f <- createFirefly ;;
       fs <- createFireflies n ;;
       ret (f :: fs))%rand
  end.

(** The callback of [forEach] in [fireflies.update]. *)
Definition animate (time : R) (firefly : Firefly) (index : nat) : Firefly :=
  let d := userData firefly in
  let py := originalY d + sin (time * speed d + phase d) * (5 / 10) in
  let horizontalPhase := phase d + INR index in
  let px := originalX d + sin (time * (2 / 10) + horizontalPhase) * 1 in
  let pz := originalZ d + cos (time * (2 / 10) + horizontalPhase) * 1 in
  let s := 8 / 10 + sin (time * 2 + INR index) * (2 / 10) in
  mkFirefly (THREE.mkVector3 px py pz) (THREE.mkVector3 s s s) d.

(** [children.forEach((firefly, index) => ...)], from index [i] on. *)
Fixpoint forEach (f : Firefly -> nat -> Firefly) (i : nat)
    (children : list Firefly) : list Firefly :=
  match children with
  | [] => []
  | c :: rest => f c i :: forEach f (S i) rest
  end.

(** [fireflies.update(delta)], where [now] is what [Date.now()] returns
  during the call. *)
Definition update (delta : R) (now : R) (children : list Firefly)
  : list Firefly :=
  let time := now * (1 / 1000) in
  forEach (animate time) 0 children.

(** A run of the host loop: one [(delta, now)] pair per call of
  [update]. *)
Definition run (calls : list (R * R)) (children : list Firefly)
  : list Firefly :=
  fold_left (fun cs call => update (fst call) (snd call) cs) calls children.

End Fireflies.

(* ================================================================== *)
(** ** Tree placement ([createProceduralTrees]) *)
(* ================================================================== *)

Module Trees.

(** How a statement ends: normally with a value, or with the [TypeError]
  of calling something that is not a function. *)
Inductive Completion (A : Type) : Type :=
| Normal (a : A)
| Throw.
Arguments Normal {A} a.
Arguments Throw {A}.

Section Placement.

(** [noise.noise(x, y)] of the [SimplexNoise] instance, the [THREE.Group]
  a tree is, and the three constructors of [treeTypes], which draw random
  numbers of their own. *)
Variable noise : R -> R -> R.
Variable Group : Type.
Variables createPineTree createBroadleafTree createSimpleTree : Rand Group.

(** A tree of [treesGroup]: the group and the transform the loop gives it. *)
Record Tree : Type := mkTree {
  group : Group;
  position : THREE.Vector3;
  rotationY : R;
  scale : THREE.Vector3
}.

Definition treeTypes : list (Rand Group) :=
  [createPineTree; createBroadleafTree; createSimpleTree].

(** The candidate position of one iteration, before the noise test. *)
Definition candidate : Rand (R * R) :=
  (u1 <- random ;;
   let angle := u1 * PI * 2 in
   u2 <- random ;;
   let radius := 5 + u2 * 150 in
   ret (cos angle * radius, sin angle * radius))%rand.

(** [Math.floor((noiseValue + 1) * 1.5) % treeTypes.length]; on integers
  [%] is [Z.rem]. *)
Definition treeTypeIndex (noiseValue : R) : Z :=
  Z.rem (JS.floor ((noiseValue + 1) * (15 / 10)))
        (Z.of_nat (length treeTypes)).

(** One iteration of the loop: [Normal None] when the iteration ends at
  [continue], [Normal (Some tree)] when it adds [tree] to the group. *)
Definition placeTree : Rand (Completion (option Tree)) :=
  (xz <- candidate ;;
   let x := fst xz in
   let z := snd xz in
   let noiseValue := noise (x * (2 / 100)) (z * (2 / 100)) in
   if JS.ltb noiseValue (- (3 / 10)) then ret (Normal None)
   else
     let x := x + noiseValue * 10 in
     let z := z + noiseValue * 10 in
     match JS.get treeTypes (treeTypeIndex noiseValue) with
     | None => ret Throw
     | Some createTreeFn =>
         tree <- createTreeFn ;;
         u3 <- random ;;
         u4 <- random ;;
         let scale := 8 / 10 + u4 * (4 / 10) in
         u5 <- random ;;
         ret (Normal (Some (mkTree tree (THREE.mkVector3 x 0 z)
                                   (u3 * PI * 2)
                                   (THREE.mkVector3 scale
                                                    (scale + u5 * (2 / 10))
                                                    scale))))
     end)%rand.

(** The loop of [createProceduralTrees], [count] iterations, adding to
  [treesGroup]. *)
Fixpoint createProceduralTrees (count : nat) (treesGroup : list Tree)
  : Rand (Completion (list Tree)) :=
  match count with
  | O => ret (Normal treesGroup)
  | S n =>
      (c <- placeTree ;;
       match c with
       | Throw => ret Throw
       | Normal None => createProceduralTrees n treesGroup
       | Normal (Some tree) => createProceduralTrees n (treesGroup ++ [tree])
       end)%rand
  end.

(** [treeCount]. *)
Definition treeCount : nat := 100.

End Placement.

Arguments group {Group} _.
Arguments position {Group} _.
Arguments rotationY {Group} _.
Arguments scale {Group} _.

Section Models.

(** [noise.noise(x, y)] of the [SimplexNoise] instance of [placeGLTFTrees]
  and the array [treeModels]; [model.clone()] is the model again. *)
Variable noise : R -> R -> R.
Variable Group : Type.
Variable treeModels : list Group.

(** One iteration of the loop of [placeGLTFTrees]; [Throw] is the
  [TypeError] of calling [clone] on [undefined]. *)
Definition placeGLTFTree : Rand (Completion (option (Tree Group))) :=
  (u1 <- random ;;
   let angle := u1 * PI * 2 in
   u2 <- random ;;
   let radius := 15 + u2 * 150 in
   let x := cos angle * radius in
   let z := sin angle * radius in
   let noiseValue := noise (x * (3 / 100)) (z * (3 / 100)) in
   if JS.ltb noiseValue (- (4 / 10)) then ret (Normal None)
   else
     let x := x + noiseValue * 8 in
     let z := z + noiseValue * 8 in
     u3 <- random ;;
     let modelIndex := JS.floor (u3 * INR (length treeModels)) in
     match JS.get treeModels modelIndex with
     | None => ret Throw
     | Some treeModel =>
         u4 <- random ;;
         u5 <- random ;;
         let scale := 1 + u5 * (5 / 10) in
         u6 <- random ;;
         ret (Normal (Some (mkTree Group treeModel (THREE.mkVector3 x 0 z)
                                   (u4 * PI * 2)
                                   (THREE.mkVector3 scale
                                                    (scale + u6 * (3 / 10))
                                                    scale))))
     end)%rand.

End Models.

End Trees.

(* ================================================================== *)
(** ** Sample scenes *)
(* ================================================================== *)

Module Samples.

(** A scene without visual sun children of interest: transforms are
  [unit], and [lookAt] has nothing to turn. *)
Definition lookAt (_ : THREE.Vector3) (o : unit) (_ : THREE.Vector3) : unit :=
  o.

(** A white sun light of intensity [1] at [(1, 1, 1)]. *)
Definition sun : DayNight.DirectionalLight :=
  DayNight.mkDirectionalLight (THREE.mkVector3 1 1 1) 1
                              (THREE.ColorHex 0xffffff).

(** The controller of a scene with a sky dome that has both uniforms and
  no visual sun, as [setupDayNightCycle] returns it. *)
Definition cycle : DayNight.State unit :=
  DayNight.setupDayNightCycle sun
    (Some (DayNight.mkSkyDome (Some (THREE.ColorHex 0x0077ff))
                              (Some (THREE.ColorHex 0xffffff))))
    None.

(** The same controller after one [togglePause()]. *)
Definition pausedCycle : DayNight.State unit :=
  snd (DayNight.togglePause cycle).

(** Two controller poses. *)
Definition grip0 : Player.Controller :=
  Player.mkController (THREE.mkVector3 1 2 3) (THREE.mkQuaternion 0 0 0 1).
Definition grip1 : Player.Controller :=
  Player.mkController (THREE.mkVector3 4 5 6) (THREE.mkQuaternion 0 1 0 0).

(** Two fireflies with the same user data. *)
Definition glow : Fireflies.UserData := Fireflies.mkUserData 1 2 3 (1 / 2) 0.
Definition swarm : list Fireflies.Firefly :=
  [Fireflies.mkFirefly (THREE.mkVector3 2 1 3) (THREE.mkVector3 1 1 1) glow;
   Fireflies.mkFirefly (THREE.mkVector3 2 1 3) (THREE.mkVector3 1 1 1) glow].

(** The same fireflies as a later frame finds them, moved and scaled. *)
Definition swarmLater : list Fireflies.Firefly :=
  [Fireflies.mkFirefly (THREE.mkVector3 9 9 9) (THREE.mkVector3 2 2 2) glow;
   Fireflies.mkFirefly (THREE.mkVector3 7 7 7) (THREE.mkVector3 3 3 3) glow].

(** A noise field that is [0] everywhere, and one that reads its first
  coordinate. *)
Definition flatNoise (_ _ : R) : R := 0.
Definition slopeNoise (u _ : R) : R := u.

(** Tree constructors that return a tag and draw nothing. *)
Definition pine : Rand nat := ret 0%nat.
Definition broadleaf : Rand nat := ret 1%nat.
Definition simple : Rand nat := ret 2%nat.

End Samples.

(* ================================================================== *)
(** ** The sky's clouds ([createSky]) *)
(* ================================================================== *)

Module Sky.

(** What [skyGroup.update] touches: [clouds.rotation.y], the position of
  every child of [clouds], and whether [skyGroup.userData.sun] is set. *)
Record State : Type := mkState {
  rotationY : R;
  clouds : list THREE.Vector3;
  sunStored : bool
}.

(** The successive readings of [Date.now()] during one call. *)
Definition Clock : Type := nat -> R.

(** [clouds.children.forEach((cloud, index) => ...)], from index [index]
  on; each cloud reads the clock twice. *)
Fixpoint drift (delta : R) (index : nat) (clock : Clock)
    (children : list THREE.Vector3) : list THREE.Vector3 :=
  match children with
  | [] => []
  | cloud :: rest =>
      THREE.mkVector3
        (THREE.x cloud
         + sin (clock 0%nat * (1 / 10000) + INR index) * delta * (5 / 100))
        (THREE.y cloud)
        (THREE.z cloud
         + cos (clock 1%nat * (1 / 10000) + INR index * (7 / 10))
           * delta * (5 / 100))
      :: drift delta (S index) (fun n => clock (S (S n))) rest
  end.

(** [skyGroup.update(delta)]. *)
Definition update (delta : R) (clock : Clock) (s : State) : State :=
  mkState (rotationY s + delta * (2 / 100))
          (drift delta 0 clock (clouds s))
          true.

(** A run of the host loop: one [(delta, clock)] pair per call. *)
Definition run (calls : list (R * Clock)) (s : State) : State :=
  fold_left (fun st call => update (fst call) (snd call) st) calls s.

(** The sum of the deltas of a run. *)
Definition elapsed (calls : list (R * Clock)) : R :=
  fold_right (fun call acc => fst call + acc) 0 calls.

End Sky.

(* ================================================================== *)
(** ** Movement ([main.js]) *)
(* ================================================================== *)

Module Main.

(** A gamepad of [navigator.getGamepads()]: its [axes], if it has any. *)
Record Gamepad : Type := mkGamepad {
  axes : option (list R)
}.

(** The module's movement variables, the position of [player.group] when
  the player exists, and the position of the camera. *)
Record State : Type := mkState {
  moveForward : bool;
  moveBackward : bool;
  moveLeft : bool;
  moveRight : bool;
  playerVelocity : THREE.Vector3;
  playerDirection : THREE.Vector3;
  player : option THREE.Vector3;
  camera : THREE.Vector3
}.

Definition moveSpeed : R := 5.

Definition set_moveForward (v : bool) (s : State) : State :=
  mkState v (moveBackward s) (moveLeft s) (moveRight s)
          (playerVelocity s) (playerDirection s) (player s) (camera s).

Definition set_moveBackward (v : bool) (s : State) : State :=
  mkState (moveForward s) v (moveLeft s) (moveRight s)
          (playerVelocity s) (playerDirection s) (player s) (camera s).

Definition set_moveLeft (v : bool) (s : State) : State :=
  mkState (moveForward s) (moveBackward s) v (moveRight s)
          (playerVelocity s) (playerDirection s) (player s) (camera s).

Definition set_moveRight (v : bool) (s : State) : State :=
  mkState (moveForward s) (moveBackward s) (moveLeft s) v
          (playerVelocity s) (playerDirection s) (player s) (camera s).

(** The body of the loop of [updateControllers] for one entry of
  [gamepads]. *)
Definition readGamepad (entry : option Gamepad) (s : State) : State :=
  match entry with
  | Some gamepad =>
      match axes gamepad with
      | Some (joystickX :: joystickY :: _) =>
          let deadzone := 15 / 100 in
          let s1 :=
            if JS.gtb (Rabs joystickX) deadzone
            then
              let sl := if JS.ltb joystickX 0 then set_moveLeft true s
                        else s in
              if JS.gtb joystickX 0 then set_moveRight true sl else sl
            else s in
          if JS.gtb (Rabs joystickY) deadzone
          then
            let sf := if JS.ltb joystickY 0 then set_moveForward true s1
                      else s1 in
            if JS.gtb joystickY 0 then set_moveBackward true sf else sf
          else s1
      | _ => s
      end
  | None => s
  end.

(** [updateControllers(delta)], given what [navigator.getGamepads()]
  returns. *)
Definition updateControllers (delta : R) (gamepads : list (option Gamepad))
    (s : State) : State :=
  fold_left (fun st entry => readGamepad entry st) gamepads s.

(** The [keydown] and [keyup] listeners. *)
Inductive Key : Type := KeyW | KeyS | KeyA | KeyD | OtherKey.

Definition setKey (v : bool) (code : Key) (s : State) : State :=
  match code with
  | KeyW => set_moveForward v s
  | KeyS => set_moveBackward v s
  | KeyA => set_moveLeft v s
  | KeyD => set_moveRight v s
  | OtherKey => s
  end.

Definition keydown (code : Key) (s : State) : State := setKey true code s.
Definition keyup (code : Key) (s : State) : State := setKey false code s.

(** The velocity that [updatePlayerMovement] builds from the flags, the
  horizontal direction and the right direction. *)
Definition velocity (delta : R) (direction : THREE.Vector3) (s : State)
  : THREE.Vector3 :=
  let v0 := THREE.mkVector3 0 0 0 in
  let v1 :=
    if moveForward s
    then THREE.add v0 (THREE.multiplyScalar direction (moveSpeed * delta))
    else v0 in
  let v2 :=
    if moveBackward s
    then THREE.add v1 (THREE.multiplyScalar direction (- moveSpeed * delta))
    else v1 in
  let rightDirection :=
    THREE.crossVectors direction (THREE.mkVector3 0 1 0) in
  let v3 :=
    if moveRight s
    then THREE.add v2 (THREE.multiplyScalar rightDirection (moveSpeed * delta))
    else v2 in
  if moveLeft s
  then THREE.add v3 (THREE.multiplyScalar rightDirection (- moveSpeed * delta))
  else v3.

(** [updatePlayerMovement(delta)], where [worldDirection] is what
  [camera.getWorldDirection] writes into [playerDirection]. *)
Definition updatePlayerMovement (delta : R) (worldDirection : THREE.Vector3)
    (s : State) : State :=
  match player s with
  | None => s
  | Some position =>
      let direction :=
        THREE.normalize
          (THREE.mkVector3 (THREE.x worldDirection) 0
                           (THREE.z worldDirection)) in
      let v := velocity delta direction s in
      if JS.gtb (THREE.lengthSq v) 0
      then mkState (moveForward s) (moveBackward s) (moveLeft s) (moveRight s)
                   v direction (Some (THREE.add position v))
                   (THREE.add (camera s) v)
      else mkState (moveForward s) (moveBackward s) (moveLeft s) (moveRight s)
                   v direction (Some position) (camera s)
  end.

(** [s'] has every movement flag that [s] has, and the same velocity,
  direction, player and camera. *)
Definition keeps (s s' : State) : Prop :=
  (moveForward s = true -> moveForward s' = true)
  /\ (moveBackward s = true -> moveBackward s' = true)
  /\ (moveLeft s = true -> moveLeft s' = true)
  /\ (moveRight s = true -> moveRight s' = true)
  /\ playerVelocity s' = playerVelocity s
  /\ playerDirection s' = playerDirection s
  /\ player s' = player s
  /\ camera s' = camera s.

(** A gamepad whose stick is at [(joystickX, joystickY)]. *)
Definition stick (joystickX joystickY : R) (more : list R) : option Gamepad :=
  Some (mkGamepad (Some (joystickX :: joystickY :: more))).

End Main.

(* ================================================================== *)
(** ** More sample scenes *)
(* ================================================================== *)

Module Scenes.


(** A clock that always reads [0], and a sky with two clouds. *)
Definition stillClock : Sky.Clock := fun _ => 0.
Definition sky : Sky.State :=
  Sky.mkState 0 [THREE.mkVector3 100 50 0; THREE.mkVector3 0 60 100] false.

(** A player at the origin with the camera at eye level: at rest, walking
  forward, and with the forward and backward flags both set. *)
Definition idle : Main.State :=
  Main.mkState false false false false
               (THREE.mkVector3 0 0 0) (THREE.mkVector3 0 0 0)
               (Some (THREE.mkVector3 0 0 0)) (THREE.mkVector3 0 (16 / 10) 0).
Definition walker : Main.State := Main.set_moveForward true idle.
Definition torn : Main.State := Main.set_moveBackward true walker.

(** A camera that looks along the negative z axis. *)
Definition ahead : THREE.Vector3 := THREE.mkVector3 0 0 (-1).

(** Three tree models, a noise field that is [-1] everywhere, and a
  buffer of two vertices. *)
Definition models : list nat := [0; 1; 2]%nat.
Definition deepNoise (_ _ : R) : R := -1.
Definition plane : list R := [1; 2; 3; 4; 5; 6].

End Scenes.

(* ================================================================== *)
(** * Properties *)
(* ================================================================== *)

(** ** The remainder by one *)

Lemma trunc_nonneg (x : R) : 0 <= x -> JS.trunc x = Int_part x.
Proof.
  intros Hx. unfold JS.trunc. destruct (Rle_dec 0 x) as [_ | Hn].
  - reflexivity.
  - contradiction.
Qed.

Lemma trunc_neg (x : R) : x < 0 -> JS.trunc x = (- Int_part (- x))%Z.
Proof.
  intros Hx. unfold JS.trunc. destruct (Rle_dec 0 x) as [Hp | _].
  - lra.
  - reflexivity.
Qed.

Lemma rem_one_nonneg (x : R) : 0 <= x -> JS.rem x 1 = frac_part x.
Proof.
  intros Hx. unfold JS.rem, frac_part.
  replace (x / 1) with x by field.
  rewrite (trunc_nonneg x Hx). ring.
Qed.

Lemma Int_part_bounds (x : R) : IZR (Int_part x) <= x < IZR (Int_part x) + 1.
Proof.
  destruct (base_Int_part x) as [Hle Hgt]. lra.
Qed.

Lemma frac_part_range (x : R) : 0 <= frac_part x < 1.
Proof.
  destruct (base_fp x) as [Hge Hlt]. lra.
Qed.

Lemma Int_part_shift (x : R) (k : Z) :
  Int_part (IZR k + x) = (k + Int_part x)%Z.
Proof.
  symmetry. apply Int_part_spec. rewrite plus_IZR.
  pose proof (Int_part_bounds x). lra.
Qed.

Lemma frac_part_shift (x : R) (k : Z) : frac_part (IZR k + x) = frac_part x.
Proof.
  unfold frac_part. rewrite Int_part_shift, plus_IZR. ring.
Qed.

(** Wrapping first and adding then wraps to the same value as adding
  first. *)
Lemma frac_part_absorb (a b : R) :
  frac_part (frac_part a + b) = frac_part (a + b).
Proof.
  rewrite <- (frac_part_shift (frac_part a + b) (Int_part a)).
  f_equal. unfold frac_part. ring.
Qed.

Lemma Int_part_small (x : R) : 0 <= x < 1 -> Int_part x = 0%Z.
Proof.
  intros Hx. symmetry. apply Int_part_spec. simpl. lra.
Qed.

Lemma Int_part_quotient (q r b : Z) :
  (0 < b)%Z -> (0 <= r < b)%Z ->
  Int_part (IZR (b * q + r) / IZR b) = q.
Proof.
  intros Hb Hr. symmetry. apply Int_part_spec.
  assert (HbR : 0 < IZR b) by (apply IZR_lt; exact Hb).
  assert (Hr0 : 0 <= IZR r) by (apply IZR_le; lia).
  assert (Hr1 : IZR r < IZR b) by (apply IZR_lt; lia).
  rewrite plus_IZR, mult_IZR.
  replace ((IZR b * IZR q + IZR r) / IZR b) with (IZR q + IZR r / IZR b)
    by (field; lra).
  assert (Hq0 : 0 <= IZR r / IZR b).
  { apply Rmult_le_pos; [ lra | left; apply Rinv_0_lt_compat; lra ]. }
  assert (Hq1 : IZR r / IZR b < 1).
  { apply (Rmult_lt_reg_r (IZR b)); [ lra | ].
    unfold Rdiv. rewrite Rmult_assoc, Rinv_l by lra. lra. }
  lra.
Qed.

Lemma trunc_quot (a b : Z) :
  (0 < b)%Z -> JS.trunc (IZR a / IZR b) = Z.quot a b.
Proof.
  intros Hb.
  assert (HbR : 0 < IZR b) by (apply IZR_lt; exact Hb).
  pose proof (Z.quot_rem' a b) as Hdiv.
  destruct (Z_le_gt_dec 0 a) as [Hpos | Hneg].
  - pose proof (Z.rem_bound_pos a b Hpos Hb) as Hrem.
    rewrite trunc_nonneg.
    + rewrite Hdiv at 1. apply Int_part_quotient; assumption.
    + apply Rmult_le_pos; [ apply IZR_le; lia | ].
      left. apply Rinv_0_lt_compat. exact HbR.
  - assert (Hrem : (- b < Z.rem a b <= 0)%Z).
    { pose proof (Z.rem_bound_pos_neg a b Hb ltac:(lia)). lia. }
    destruct (Z.eq_dec (Z.rem a b) 0) as [Hzero | Hnz].
    + assert (Ha : a = (b * Z.quot a b)%Z) by lia.
      assert (Hq : (Z.quot a b < 0)%Z) by nia.
      rewrite trunc_neg.
      * replace (- (IZR a / IZR b)) with (IZR (b * (- Z.quot a b) + 0) / IZR b).
        -- rewrite Int_part_quotient by lia. lia.
        -- rewrite Ha at 2. rewrite plus_IZR, !mult_IZR, opp_IZR. simpl.
           field. lra.
      * rewrite Ha, mult_IZR.
        replace (IZR b * IZR (Z.quot a b) / IZR b) with (IZR (Z.quot a b))
          by (field; lra).
        apply IZR_lt in Hq. simpl in Hq. exact Hq.
    + assert (HaR : IZR a < 0) by (apply (IZR_lt a 0); lia).
      rewrite trunc_neg.
      * replace (- (IZR a / IZR b))
          with (IZR (b * (- Z.quot a b) + (- Z.rem a b)) / IZR b).
        -- rewrite Int_part_quotient by lia. lia.
        -- rewrite Hdiv at 3.
           rewrite !plus_IZR, !mult_IZR, !opp_IZR. field. lra.
      * apply (Rmult_lt_reg_r (IZR b)); [ lra | ].
        unfold Rdiv. rewrite Rmult_assoc, Rinv_l by lra. lra.
Qed.

(** On integers, with a positive right operand, [%] is [Z.rem]. *)
Lemma rem_integers (a b : Z) :
  (0 < b)%Z -> JS.rem (IZR a) (IZR b) = IZR (Z.rem a b).
Proof.
  intros Hb. unfold JS.rem. rewrite (trunc_quot a b Hb).
  pose proof (Z.quot_rem' a b) as Hdiv.
  rewrite Hdiv at 1. rewrite plus_IZR, mult_IZR. ring.
Qed.

(** ** The day-night cycle controller *)

Section DayNightFacts.

Import DayNight.

Variable Object3D : Type.
Variable lookAt : THREE.Vector3 -> Object3D -> THREE.Vector3 -> Object3D.

Local Abbreviation State := (DayNight.State Object3D).

Lemma params_update_running (delta : R) (s : State) :
  paused (params s) = false ->
  params (update lookAt delta s)
  = set_timeOfDay
      (JS.rem (timeOfDay (params s) + delta / dayDuration (params s)) 1)
      (params s).
Proof.
  intros Hrun. unfold update. rewrite Hrun. reflexivity.
Qed.

Lemma update_paused (delta : R) (s : State) :
  paused (params s) = true -> update lookAt delta s = s.
Proof.
  intros Hp. unfold update. rewrite Hp. reflexivity.
Qed.

Lemma timeOfDay_update_running (delta : R) (s : State) :
  paused (params s) = false ->
  getTimeOfDay (update lookAt delta s)
  = JS.rem (timeOfDay (params s) + delta / dayDuration (params s)) 1.
Proof.
  intros Hrun. unfold getTimeOfDay.
  rewrite (params_update_running delta s Hrun). reflexivity.
Qed.

Lemma quotient_nonneg (delta d : R) : 0 <= delta -> 0 < d -> 0 <= delta / d.
Proof.
  intros Hdelta Hd. unfold Rdiv.
  apply Rmult_le_pos; [ exact Hdelta | ].
  left. apply Rinv_0_lt_compat. exact Hd.
Qed.

(** [setTimeOfDay] on a time that is not negative stores its fractional
  part. *)
Lemma setTimeOfDay_nonneg (t : R) (s : State) :
  0 <= t -> getTimeOfDay (setTimeOfDay t s) = frac_part t.
Proof.
  intros Ht. unfold getTimeOfDay, setTimeOfDay. simpl.
  apply rem_one_nonneg. exact Ht.
Qed.

(** [update] keeps a time of day of [[0,1)] in [[0,1)]. *)
Lemma update_keeps_range (delta : R) (s : State) :
  0 <= delta -> 0 < dayDuration (params s) ->
  0 <= getTimeOfDay s < 1 ->
  0 <= getTimeOfDay (update lookAt delta s) < 1.
Proof.
  intros Hdelta Hd Hrange.
  destruct (paused (params s)) eqn:Hp.
  - rewrite (update_paused delta s Hp). exact Hrange.
  - rewrite (timeOfDay_update_running delta s Hp).
    unfold getTimeOfDay in Hrange.
    pose proof (quotient_nonneg delta _ Hdelta Hd) as Hq.
    rewrite rem_one_nonneg by lra.
    apply frac_part_range.
Qed.

(** [togglePause] and [setCycleSpeed] do not touch the time of day. *)
Lemma togglePause_timeOfDay (s : State) :
  getTimeOfDay (snd (togglePause s)) = getTimeOfDay s.
Proof. reflexivity. Qed.

Lemma setCycleSpeed_timeOfDay (d : R) (s : State) :
  getTimeOfDay (setCycleSpeed d s) = getTimeOfDay s.
Proof.
  unfold setCycleSpeed. destruct (JS.gtb d 0); reflexivity.
Qed.

(** The cycle duration stays positive under every operation. *)
Lemma dayDuration_update (delta : R) (s : State) :
  dayDuration (params (update lookAt delta s)) = dayDuration (params s).
Proof.
  destruct (paused (params s)) eqn:Hp.
  - rewrite (update_paused delta s Hp). reflexivity.
  - rewrite (params_update_running delta s Hp). reflexivity.
Qed.

Lemma dayDuration_setCycleSpeed_positive (d : R) (s : State) :
  0 < dayDuration (params s) ->
  0 < dayDuration (params (setCycleSpeed d s)).
Proof.
  intros Hd. unfold setCycleSpeed, JS.gtb, JS.ltb.
  destruct (Rlt_dec 0 d) as [Hpos | Hneg]; simpl; assumption.
Qed.

Lemma reachable_dayDuration_positive (s : State) :
  Reachable Object3D lookAt s -> 0 < dayDuration (params s).
Proof.
  induction 1 as [ sun dome vs | delta s _ IH | time s _ IH | s _ IH
                 | d s _ IH ].
  - simpl. lra.
  - rewrite dayDuration_update. exact IH.
  - exact IH.
  - exact IH.
  - apply dayDuration_setCycleSpeed_positive. exact IH.
Qed.

(** C1: with the cycle running and a positive cycle duration [D],
  [setTimeOfDay t0] followed by [update dt], for [t0 >= 0] and [dt >= 0],
  leaves the time of day at [(t0 + dt / D) mod 1], the fractional part of
  [t0 + dt / D]. *)
Theorem C1_setTimeOfDay_then_update (t0 dt : R) (s : State) :
  0 <= t0 -> 0 <= dt ->
  paused (params s) = false ->
  0 < dayDuration (params s) ->
  getTimeOfDay (update lookAt dt (setTimeOfDay t0 s))
  = frac_part (t0 + dt / dayDuration (params s)).
Proof.
  intros Ht0 Hdt Hrun Hd.
  rewrite timeOfDay_update_running by exact Hrun.
  change (timeOfDay (params (setTimeOfDay t0 s)))
    with (getTimeOfDay (setTimeOfDay t0 s)).
  rewrite (setTimeOfDay_nonneg t0 s Ht0).
  change (dayDuration (params (setTimeOfDay t0 s)))
    with (dayDuration (params s)).
  pose proof (quotient_nonneg dt _ Hdt Hd) as Hq.
  pose proof (frac_part_range t0) as Hf.
  rewrite rem_one_nonneg by lra.
  apply frac_part_absorb.
Qed.

(** [setTimeOfDay] on a negative time stores the negated fractional part
  of its absolute value: a value in [(-1, 0]]. *)
Lemma setTimeOfDay_neg (t : R) (s : State) :
  t < 0 -> getTimeOfDay (setTimeOfDay t s) = - frac_part (- t).
Proof.
  intros Ht. unfold getTimeOfDay, setTimeOfDay. simpl. unfold JS.rem.
  replace (t / 1) with t by field.
  rewrite (trunc_neg t Ht), opp_IZR. unfold frac_part. ring.
Qed.

(** C3, at the input where the code leaves the range: [setTimeOfDay] on
  [-1/4] stores [-1/4], which is not in [[0,1)], because [%] keeps the sign
  of its left operand. *)
Theorem C3_setTimeOfDay_negative (s : State) :
  getTimeOfDay (setTimeOfDay (- (1 / 4)) s) = - (1 / 4)
  /\ ~ (0 <= getTimeOfDay (setTimeOfDay (- (1 / 4)) s) < 1).
Proof.
  assert (Hval : getTimeOfDay (setTimeOfDay (- (1 / 4)) s) = - (1 / 4)).
  { unfold getTimeOfDay, setTimeOfDay. simpl. unfold JS.rem.
    replace (- (1 / 4) / 1) with (- (1 / 4)) by field.
    rewrite trunc_neg by lra.
    replace (- - (1 / 4)) with (1 / 4) by ring.
    rewrite Int_part_small by lra. simpl. ring. }
  split; [ exact Hval | rewrite Hval; lra ].
Qed.

(** C6: [setCycleSpeed d] with [d <= 0] returns the state it was given;
  with [d > 0] it stores [d] as the cycle duration and changes nothing
  else. *)
Theorem C6_setCycleSpeed (d : R) (s : State) :
  (d <= 0 -> setCycleSpeed d s = s)
  /\ (0 < d ->
      setCycleSpeed d s = set_params (set_dayDuration d (params s)) s
      /\ dayDuration (params (setCycleSpeed d s)) = d).
Proof.
  unfold setCycleSpeed, JS.gtb, JS.ltb.
  destruct (Rlt_dec 0 d) as [Hpos | Hneg]; split; intros Hd.
  - lra.
  - split; reflexivity.
  - reflexivity.
  - contradiction.
Qed.

(** C7: while paused, [update] returns the state it was given: the time of
  day, both lights, the ambient light, the sky dome's uniforms, the stars
  and the visual sun are all as before. *)
Theorem C7_update_paused_changes_nothing (dt : R) (s : State) :
  paused (params s) = true -> update lookAt dt s = s.
Proof.
  exact (update_paused dt s).
Qed.

End DayNightFacts.

(** ** Ambient audio *)

Section AudioFacts.

Import Audio.

Lemma dayFactor_range (t : R) : 0 <= JS.max 0 (sin (t * PI * 2)) <= 1.
Proof.
  unfold JS.max. destruct (SIN_bound (t * PI * 2)) as [_ Hup].
  split.
  - apply Rmax_l.
  - apply Rmax_lub; lra.
Qed.

(** C10: when the birds and the night ambience both exist and are playing,
  [updateAudioForTimeOfDay t] sets the birds' volume to
  [0.5 * max 0 (sin (2 PI t))] and the night ambience's volume to
  [0.5 * (1 - max 0 (sin (2 PI t)))]; both volumes lie in [[0, 0.5]] and
  they add up to [0.5]. *)
Theorem C10_ambient_volumes (t : R) (s : State) (b n : AudioSource) :
  birds s = Some b -> nightSource s = Some n ->
  isPlaying b = true -> isPlaying n = true ->
  exists b' n' : AudioSource,
    birds (updateAudioForTimeOfDay t s) = Some b'
    /\ nightSource (updateAudioForTimeOfDay t s) = Some n'
    /\ volume b' = 5 / 10 * Rmax 0 (sin (2 * PI * t))
    /\ volume n' = 5 / 10 * (1 - Rmax 0 (sin (2 * PI * t)))
    /\ 0 <= volume b' <= 5 / 10
    /\ 0 <= volume n' <= 5 / 10
    /\ volume b' + volume n' = 5 / 10.
Proof.
  intros Hb Hn Hpb Hpn.
  unfold updateAudioForTimeOfDay. rewrite Hb, Hn, Hpb, Hpn.
  pose proof (dayFactor_range t) as Hrange.
  replace (2 * PI * t) with (t * PI * 2) by ring.
  unfold JS.max in *.
  set (dayFactor := Rmax 0 (sin (t * PI * 2))) in *.
  eexists. eexists.
  split; [ reflexivity | ]. split; [ reflexivity | ].
  simpl. repeat split; lra.
Qed.

End AudioFacts.

(** ** The player's hands *)

Section PlayerFacts.

Import Player.

Lemma updateHands_present (cs : list Controller) (p : Player) (i : nat)
    (c : Controller) (h : Hand) :
  hand i p = Some h -> nth_error cs i = Some c ->
  hand i (updateHands cs p) = Some (follow c h).
Proof.
  intros Hh Hc.
  destruct i as [ | [ | i ] ]; simpl in Hh; try discriminate;
    injection Hh as <-.
  - destruct cs as [ | c0 cs ]; simpl in Hc; [ discriminate | ].
    injection Hc as ->. reflexivity.
  - destruct cs as [ | c0 [ | c1 cs ] ]; simpl in Hc; try discriminate.
    injection Hc as ->. reflexivity.
Qed.

Lemma updateHands_absent (cs : list Controller) (p : Player) (i : nat) :
  (length cs <= i)%nat -> hand i (updateHands cs p) = hand i p.
Proof.
  intros Hlen.
  destruct i as [ | [ | i ] ]; try reflexivity.
  - destruct cs as [ | c0 cs ]; [ reflexivity | simpl in Hlen; lia ].
  - destruct cs as [ | c0 [ | c1 cs ] ]; try reflexivity.
    simpl in Hlen. lia.
Qed.

Lemma shown_updateHands (cs : list Controller) (p : Player) (i : nat) :
  (i < 2)%nat ->
  shown i (updateHands cs p) = shown i p || (i <? length cs)%nat.
Proof.
  intros Hi. unfold shown.
  destruct i as [ | [ | i ] ]; [ | | lia ].
  - destruct cs as [ | c0 cs ]; simpl.
    + rewrite orb_false_r. reflexivity.
    + rewrite orb_true_r. reflexivity.
  - destruct cs as [ | c0 [ | c1 cs ] ]; simpl.
    + rewrite orb_false_r. reflexivity.
    + rewrite orb_false_r. reflexivity.
    + rewrite orb_true_r. reflexivity.
Qed.

Lemma shown_frames (fs : list (list Controller)) (p : Player) (i : nat) :
  (i < 2)%nat ->
  shown i (frames fs p)
  = shown i p || existsb (fun cs => (i <? length cs)%nat) fs.
Proof.
  intros Hi. revert p.
  induction fs as [ | cs fs IH ]; intros p.
  - simpl. rewrite orb_false_r. reflexivity.
  - change (frames (cs :: fs) p) with (frames fs (updateHands cs p)).
    rewrite IH, (shown_updateHands cs p i Hi). simpl.
    rewrite orb_assoc. reflexivity.
Qed.

(** C9: both hands start hidden; a pose at index [i] makes hand [i]
  visible and gives it that pose's position and orientation; a list with
  no entry at index [i] leaves hand [i] as it was; so after any sequence
  of frames hand [i] is visible exactly when some frame had a pose at
  index [i], and a visible hand stays visible. *)
Theorem C9_hands_follow_controllers :
  (visible (leftHand createPlayer) = false
   /\ visible (rightHand createPlayer) = false)
  /\ (forall cs p i c h,
        hand i p = Some h -> nth_error cs i = Some c ->
        exists h',
          hand i (updateHands cs p) = Some h'
          /\ visible h' = true
          /\ position h' = controllerPosition c
          /\ quaternion h' = controllerQuaternion c)
  /\ (forall cs p i,
        (length cs < i + 1)%nat -> hand i (updateHands cs p) = hand i p)
  /\ (forall fs i,
        (i < 2)%nat ->
        (shown i (frames fs createPlayer) = true
         <-> exists cs, In cs fs /\ (i < length cs)%nat))
  /\ (forall fs p i,
        (i < 2)%nat -> shown i p = true -> shown i (frames fs p) = true).
Proof.
  split; [ split; reflexivity | ].
  split.
  { intros cs p i c h Hh Hc. exists (follow c h).
    split; [ exact (updateHands_present cs p i c h Hh Hc) | ].
    repeat split. }
  split.
  { intros cs p i Hlen. apply updateHands_absent. lia. }
  split.
  { intros fs i Hi. rewrite (shown_frames fs createPlayer i Hi).
    assert (Hstart : shown i createPlayer = false).
    { destruct i as [ | [ | i ] ]; reflexivity. }
    rewrite Hstart. simpl. rewrite existsb_exists.
    split.
    - intros [cs [Hin Hlt]]. exists cs. split; [ exact Hin | ].
      apply Nat.ltb_lt. exact Hlt.
    - intros [cs [Hin Hlt]]. exists cs. split; [ exact Hin | ].
      apply Nat.ltb_lt. exact Hlt. }
  intros fs p i Hi Hshown.
  rewrite (shown_frames fs p i Hi), Hshown. reflexivity.
Qed.

End PlayerFacts.

(** ** Fireflies *)

Section FirefliesFacts.

Import Fireflies.

Lemma forEach_userData (t : R) (i : nat) (cs : list Firefly) :
  map userData (forEach (animate t) i cs) = map userData cs.
Proof.
  revert i. induction cs as [ | c cs IH ]; intros i; simpl.
  - reflexivity.
  - rewrite IH. reflexivity.
Qed.

Lemma update_userData (delta now : R) (cs : list Firefly) :
  map userData (update delta now cs) = map userData cs.
Proof. apply forEach_userData. Qed.

Lemma run_userData (calls : list (R * R)) (cs : list Firefly) :
  map userData (run calls cs) = map userData cs.
Proof.
  revert cs. induction calls as [ | [delta now] calls IH ]; intros cs.
  - reflexivity.
  - change (run ((delta, now) :: calls) cs)
      with (run calls (update delta now cs)).
    rewrite IH. apply update_userData.
Qed.

(** The animation reads nothing of a firefly but its user data. *)
Lemma forEach_reads_userData (t : R) (i : nat) (cs1 cs2 : list Firefly) :
  map userData cs1 = map userData cs2 ->
  forEach (animate t) i cs1 = forEach (animate t) i cs2.
Proof.
  revert i cs2.
  induction cs1 as [ | c1 cs1 IH ]; intros i [ | c2 cs2 ] Heq;
    simpl in Heq; try discriminate.
  - reflexivity.
  - injection Heq as Hd Hrest. simpl.
    rewrite (IH (S i) cs2 Hrest).
    unfold animate. rewrite Hd. reflexivity.
Qed.

Lemma forEach_nth (t : R) (i k : nat) (cs : list Firefly) (f : Firefly) :
  nth_error (forEach (animate t) i cs) k = Some f ->
  exists c, nth_error cs k = Some c /\ f = animate t c (i + k).
Proof.
  revert i k. induction cs as [ | c cs IH ]; intros i k Hk.
  - destruct k; discriminate.
  - destruct k as [ | k ]; simpl in Hk.
    + injection Hk as <-. exists c. rewrite Nat.add_0_r. split; reflexivity.
    + destruct (IH (S i) k Hk) as [c' [Hc' Hf]].
      exists c'. split; [ exact Hc' | ].
      rewrite Hf. f_equal. lia.
Qed.

Lemma forEach_length (t : R) (i : nat) (cs : list Firefly) :
  length (forEach (animate t) i cs) = length cs.
Proof.
  revert i. induction cs as [ | c cs IH ]; intros i; simpl.
  - reflexivity.
  - rewrite IH. reflexivity.
Qed.

(** Every firefly of the group is animated, at its own index. *)
Lemma forEach_at (t : R) (i k : nat) (cs : list Firefly) (c : Firefly) :
  nth_error cs k = Some c ->
  nth_error (forEach (animate t) i cs) k = Some (animate t c (i + k)).
Proof.
  revert i k. induction cs as [ | c0 cs IH ]; intros i k Hk.
  - destruct k; discriminate.
  - destruct k as [ | k ]; simpl in Hk |- *.
    + injection Hk as ->. rewrite Nat.add_0_r. reflexivity.
    + rewrite (IH (S i) k Hk). do 2 f_equal. lia.
Qed.

Lemma run_length (calls : list (R * R)) (cs : list Firefly) :
  length (run calls cs) = length cs.
Proof.
  rewrite <- (length_map userData (run calls cs)), run_userData.
  apply length_map.
Qed.

(** A firefly keeps its user data through a run. *)
Lemma run_at (calls : list (R * R)) (cs : list Firefly) (k : nat)
    (c : Firefly) :
  nth_error cs k = Some c ->
  exists c', nth_error (run calls cs) k = Some c'
             /\ userData c' = userData c.
Proof.
  intros Hc.
  assert (Hmap : nth_error (map userData (run calls cs)) k
                 = Some (userData c)).
  { rewrite run_userData, nth_error_map, Hc. reflexivity. }
  rewrite nth_error_map in Hmap.
  destruct (nth_error (run calls cs) k) as [ c' | ]; [ | discriminate ].
  simpl in Hmap. injection Hmap as Hd.
  exists c'. split; [ reflexivity | exact Hd ].
Qed.

(** C8, with the index: take two runs of the host loop over fireflies
  with the same user data, whatever calls of [update] came before and
  whatever [delta] is passed.  Two calls of [update] made at the same
  clock reading [now] leave the same fireflies; the call leaves one
  firefly for each firefly of the group, and for the firefly at index [k]
  the position and the scale are the closed form below in [now], the
  index [k] and its phase, speed and original position. *)
Theorem C8_fireflies_stateless_replay
    (calls1 calls2 : list (R * R)) (delta1 delta2 now : R)
    (cs1 cs2 : list Firefly) :
  map userData cs1 = map userData cs2 ->
  update delta1 now (run calls1 cs1) = update delta2 now (run calls2 cs2)
  /\ length (update delta1 now (run calls1 cs1)) = length cs1
  /\ (forall k c,
        nth_error cs1 k = Some c ->
        exists f,
          nth_error (update delta1 now (run calls1 cs1)) k = Some f
          /\ userData f = userData c
          /\ position f
             = THREE.mkVector3
                 (originalX (userData c)
                  + sin (now * (1 / 1000) * (2 / 10)
                         + (phase (userData c) + INR k)) * 1)
                 (originalY (userData c)
                  + sin (now * (1 / 1000) * speed (userData c)
                         + phase (userData c)) * (5 / 10))
                 (originalZ (userData c)
                  + cos (now * (1 / 1000) * (2 / 10)
                         + (phase (userData c) + INR k)) * 1)
          /\ scale f
             = (let s := 8 / 10 + sin (now * (1 / 1000) * 2 + INR k) * (2 / 10)
                in THREE.mkVector3 s s s)).
Proof.
  intros Hsame. split; [ | split ].
  - unfold update. apply forEach_reads_userData.
    rewrite !run_userData. exact Hsame.
  - unfold update. rewrite forEach_length. apply run_length.
  - intros k c Hc.
    destruct (run_at calls1 cs1 k c Hc) as [c' [Hc' Hd]].
    exists (animate (now * (1 / 1000)) c' k).
    split.
    + unfold update. rewrite (forEach_at _ 0 k _ c' Hc'). reflexivity.
    + unfold animate. simpl. rewrite Hd. repeat split.
Qed.

(** C8, as the claim has it, fails: the two fireflies of the sample group
  have the same phase, speed and original position, and one call of
  [update] at clock reading [0] leaves them with different positions and
  different scales, because the animation also reads the index. *)
Lemma C8_index_counterexample :
  exists f0 f1 : Firefly,
    nth_error (update 0 0 Samples.swarm) 0 = Some f0
    /\ nth_error (update 0 0 Samples.swarm) 1 = Some f1
    /\ userData f0 = userData f1
    /\ position f0 <> position f1
    /\ scale f0 <> scale f1.
Proof.
  assert (Hsin : 0 < sin 1).
  { apply sin_gt_0; [ lra | pose proof PI2_1; lra ]. }
  eexists. eexists.
  split; [ reflexivity | ]. split; [ reflexivity | ].
  split; [ reflexivity | ].
  split; intros Heq; apply (f_equal THREE.x) in Heq; simpl in Heq.
  - replace (0 * (1 / 1000) * (2 / 10) + (0 + 0)) with 0 in Heq by lra.
    replace (0 * (1 / 1000) * (2 / 10) + (0 + 1)) with 1 in Heq by lra.
    rewrite sin_0 in Heq. lra.
  - replace (0 * (1 / 1000) * 2 + 0) with 0 in Heq by lra.
    replace (0 * (1 / 1000) * 2 + 1) with 1 in Heq by lra.
    rewrite sin_0 in Heq. lra.
Qed.

End FirefliesFacts.

(** ** Terrain *)

Section TerrainFacts.

Import Terrain.

Variable noise : R -> R -> R.

Lemma applyHeightMap_step (x y z : R) (rest : list R) (intensity : R)
    (rs : RandomSource) :
  fst (applyHeightMap noise (x :: y :: z :: rest) intensity rs)
  = x :: (if JS.gtb (rs 0%nat) (97 / 100)
          then octaves noise x z intensity * (1 / 10)
          else octaves noise x z intensity)
      :: z :: fst (applyHeightMap noise rest intensity (fun n => rs (S n))).
Proof.
  simpl. unfold bind, random.
  destruct (applyHeightMap noise rest intensity (fun n => rs (S n)))
    as [rest' rs'].
  reflexivity.
Qed.

Lemma applyHeightMap_vertex (vertices : list R) (intensity : R)
    (rs : RandomSource) (k : nat) (x y z : R) :
  nth_error vertices (3 * k) = Some x ->
  nth_error vertices (3 * k + 1) = Some y ->
  nth_error vertices (3 * k + 2) = Some z ->
  let out := fst (applyHeightMap noise vertices intensity rs) in
  nth_error out (3 * k) = Some x
  /\ nth_error out (3 * k + 1)
     = Some (if JS.gtb (rs k) (97 / 100)
             then octaves noise x z intensity * (1 / 10)
             else octaves noise x z intensity)
  /\ nth_error out (3 * k + 2) = Some z.
Proof.
  revert vertices rs.
  induction k as [ | k IH ]; intros vertices rs Hx Hy Hz.
  - destruct vertices as [ | x0 [ | y0 [ | z0 rest ] ] ]; try discriminate.
    simpl in Hx, Hy, Hz.
    injection Hx as ->. injection Hz as ->.
    cbv zeta. rewrite applyHeightMap_step.
    repeat split.
  - replace (3 * S k)%nat with (S (S (S (3 * k)))) in * by lia.
    replace (S (S (S (3 * k))) + 1)%nat
      with (S (S (S (3 * k + 1)))) in * by lia.
    replace (S (S (S (3 * k))) + 2)%nat
      with (S (S (S (3 * k + 2)))) in * by lia.
    destruct vertices as [ | x0 [ | y0 [ | z0 rest ] ] ]; try discriminate.
    cbn [nth_error] in Hx, Hy, Hz.
    cbv zeta. rewrite applyHeightMap_step.
    cbn [nth_error].
    exact (IH rest (fun n => rs (S n)) Hx Hy Hz).
Qed.

(** C5: [applyHeightMap] leaves the horizontal coordinates [x] and [z] of
  every vertex and sets its elevation to
  [(noise(0.01x, 0.01z) * 0.5 + noise(0.05x, 0.05z) * 0.25
    + noise(0.2x, 0.2z) * 0.125) * intensity],
  or to a tenth of that when the vertex's random draw is above [0.97]
  (three draws in a hundred of a uniform source). *)
Theorem C5_height_of_vertex (vertices : list R) (intensity : R)
    (rs : RandomSource) (k : nat) (x y z : R) :
  nth_error vertices (3 * k) = Some x ->
  nth_error vertices (3 * k + 1) = Some y ->
  nth_error vertices (3 * k + 2) = Some z ->
  let computed :=
    (noise (x * (1 / 100)) (z * (1 / 100)) * (5 / 10)
     + noise (x * (5 / 100)) (z * (5 / 100)) * (25 / 100)
     + noise (x * (2 / 10)) (z * (2 / 10)) * (125 / 1000)) * intensity in
  let out := fst (applyHeightMap noise vertices intensity rs) in
  nth_error out (3 * k) = Some x
  /\ nth_error out (3 * k + 2) = Some z
  /\ (rs k <= 97 / 100 -> nth_error out (3 * k + 1) = Some computed)
  /\ (97 / 100 < rs k ->
      nth_error out (3 * k + 1) = Some (computed * (1 / 10))).
Proof.
  intros Hx Hy Hz computed out.
  destruct (applyHeightMap_vertex vertices intensity rs k x y z Hx Hy Hz)
    as [Hox [Hoy Hoz]].
  fold out in Hox, Hoy, Hoz.
  change (octaves noise x z intensity) with computed in Hoy.
  unfold JS.gtb, JS.ltb in Hoy.
  split; [ exact Hox | ]. split; [ exact Hoz | ].
  destruct (Rlt_dec (97 / 100) (rs k)) as [Hflat | Hkeep]; split; intros Hu.
  - lra.
  - exact Hoy.
  - exact Hoy.
  - contradiction.
Qed.

End TerrainFacts.

Section TerrainColorFacts.

Import Terrain.

Lemma ltb_true (a b : R) : a < b -> JS.ltb a b = true.
Proof.
  intros Hab. unfold JS.ltb. destruct (Rlt_dec a b); [ reflexivity | contradiction ].
Qed.

Lemma ltb_false (a b : R) : b <= a -> JS.ltb a b = false.
Proof.
  intros Hab. unfold JS.ltb. destruct (Rlt_dec a b); [ lra | reflexivity ].
Qed.

(** The three brackets of [vertexColor]. *)
Lemma vertexColor_low (height : R) :
  height < 0 -> vertexColor height = lowAreaColor.
Proof.
  intros Hh. unfold vertexColor. rewrite ltb_true by exact Hh. reflexivity.
Qed.

Lemma vertexColor_grass (height : R) :
  0 <= height < 2 -> vertexColor height = regularGrassColor.
Proof.
  intros Hh. unfold vertexColor.
  rewrite ltb_false by lra. rewrite ltb_true by lra. reflexivity.
Qed.

Lemma vertexColor_high (height : R) :
  2 <= height -> vertexColor height = highAreaColor height.
Proof.
  intros Hh. unfold vertexColor.
  rewrite ltb_false by lra. rewrite ltb_false by lra. reflexivity.
Qed.

(** The colour of the only vertex of a one-vertex buffer. *)
Lemma applyTerrainColors_one (x height z : R) (rs : RandomSource) :
  fst (applyTerrainColors [x; height; z] rs)
  = (let c := fst (vertexColor height rs) in
     [THREE.r c; THREE.g c; THREE.b c]).
Proof.
  simpl. unfold bind. destruct (vertexColor height rs) as [c rs'].
  reflexivity.
Qed.

(** At elevation exactly [2] the blend factor is [0]: the lighter-grass
  branch returns the base grass colour and draws no random number. *)
Lemma highAreaColor_at_2 (rs : RandomSource) :
  highAreaColor 2 rs = (grassColor, rs).
Proof.
  unfold highAreaColor, ret. f_equal.
  replace ((2 - 2) / 3) with 0 by field.
  unfold JS.min. rewrite Rmin_right by lra.
  unfold THREE.lerp. destruct grassColor as [cr cg cb]. simpl.
  f_equal; ring.
Qed.

(** C2, as the code has it: a vertex at elevation exactly [0] takes the
  regular-grass branch, and a vertex at elevation exactly [2] takes the
  lighter-grass branch, whose blend factor is [0] there, so that it gets
  the base grass colour without jitter. *)
Theorem C2_boundary_brackets :
  vertexColor 0 = regularGrassColor
  /\ vertexColor 2 = highAreaColor 2
  /\ (forall rs, vertexColor 2 rs = (grassColor, rs)).
Proof.
  split; [ apply vertexColor_grass; lra | ].
  split; [ apply vertexColor_high; lra | ].
  intros rs. rewrite vertexColor_high by lra. apply highAreaColor_at_2.
Qed.

(** C2, as the claim has it, fails: with a random source of zeros the
  colour of a vertex at elevation [0] is not the dirt blend, and the
  colour of a vertex at elevation [2] is not the jittered grass. *)
Lemma C2_boundary_counterexample :
  vertexColor 0 zeros <> lowAreaColor zeros
  /\ vertexColor 2 zeros <> regularGrassColor zeros.
Proof.
  rewrite (vertexColor_grass 0) by lra.
  rewrite (vertexColor_high 2) by lra.
  rewrite highAreaColor_at_2.
  split; intros Heq.
  - apply (f_equal (fun cr => THREE.r (fst cr))) in Heq.
    unfold regularGrassColor, lowAreaColor, bind, random, ret, zeros in Heq.
    unfold grassColor, dirtColor, darkGrassColor, THREE.ColorHex in Heq.
    simpl in Heq. lra.
  - apply (f_equal (fun cr => THREE.r (fst cr))) in Heq.
    unfold regularGrassColor, bind, random, ret, zeros in Heq.
    unfold grassColor, THREE.ColorHex in Heq.
    simpl in Heq. lra.
Qed.

End TerrainColorFacts.

(** ** Tree placement *)

Section TreesFacts.

Import Trees.

Variable noise : R -> R -> R.
Variable Group : Type.
Variables createPineTree createBroadleafTree createSimpleTree : Rand Group.

Local Abbreviation treeTypes :=
  (Trees.treeTypes Group createPineTree createBroadleafTree createSimpleTree).
Local Abbreviation treeTypeIndex :=
  (Trees.treeTypeIndex Group createPineTree createBroadleafTree
                       createSimpleTree).
Local Abbreviation placeTree :=
  (Trees.placeTree noise Group createPineTree createBroadleafTree
                   createSimpleTree).

Lemma floor_positive (v : R) : 1 <= v -> (1 <= JS.floor v)%Z.
Proof.
  intros Hv. unfold JS.floor.
  pose proof (Int_part_bounds v) as [_ Hup].
  assert (Hlt : IZR 0 < IZR (Int_part v)) by (simpl; lra).
  apply lt_IZR in Hlt. lia.
Qed.

(** The index that an accepted candidate computes is one of the three
  positions of [treeTypes]. *)
Lemma treeTypeIndex_valid (noiseValue : R) :
  - (3 / 10) <= noiseValue ->
  (0 <= treeTypeIndex noiseValue < 3)%Z
  /\ exists createTreeFn,
       JS.get treeTypes (treeTypeIndex noiseValue) = Some createTreeFn
       /\ In createTreeFn treeTypes.
Proof.
  intros Hn. unfold Trees.treeTypeIndex.
  assert (Hfloor : (1 <= JS.floor ((noiseValue + 1) * (15 / 10)))%Z).
  { apply floor_positive. lra. }
  set (q := JS.floor ((noiseValue + 1) * (15 / 10))) in *.
  change (Z.of_nat (length treeTypes)) with 3%Z.
  assert (Hrem : (0 <= Z.rem q 3 < 3)%Z) by (apply Z.rem_bound_pos; lia).
  split; [ exact Hrem | ].
  assert (Hcases : Z.rem q 3 = 0%Z \/ Z.rem q 3 = 1%Z \/ Z.rem q 3 = 2%Z)
    by lia.
  destruct Hcases as [-> | [-> | ->]]; eexists; (split; [ reflexivity | ]);
    simpl; auto.
Qed.

(** The two ways an iteration can end. *)
Lemma placeTree_cases (rs : RandomSource) :
  let x := fst (fst (candidate rs)) in
  let z := snd (fst (candidate rs)) in
  let noiseValue := noise (x * (2 / 100)) (z * (2 / 100)) in
  (noiseValue < - (3 / 10) -> placeTree rs = (Normal None, snd (candidate rs)))
  /\ (~ noiseValue < - (3 / 10) ->
      exists tree : Tree Group, fst (placeTree rs) = Normal (Some tree)).
Proof.
  intros x z noiseValue. split.
  - intros Hlow. unfold Trees.placeTree, bind at 1.
    subst noiseValue x z. destruct (candidate rs) as [[cx cz] rs1].
    simpl in *. rewrite ltb_true by exact Hlow. reflexivity.
  - intros Hhigh.
    assert (Hn : - (3 / 10) <= noiseValue) by lra.
    destruct (treeTypeIndex_valid noiseValue Hn)
      as [Hrange [createTreeFn [Hget Hin]]].
    unfold Trees.placeTree, bind at 1.
    subst noiseValue x z. destruct (candidate rs) as [[cx cz] rs1].
    simpl fst in *. simpl snd in *.
    rewrite ltb_false by exact Hn. rewrite Hget.
    unfold bind at 1. destruct (createTreeFn rs1) as [g rs2].
    unfold bind, random, ret. simpl.
    eexists. reflexivity.
Qed.

(** C4: a candidate is dropped exactly when the noise at its position is
  below [-0.3]; a candidate that is kept is moved by [noise * 10] along x
  and along z, and its constructor is the entry of [treeTypes] at index
  [floor ((noise + 1) * 1.5) mod 3], which is always one of the three
  entries, so the iteration never throws. *)
Theorem C4_tree_placement (rs : RandomSource) :
  let x := fst (fst (candidate rs)) in
  let z := snd (fst (candidate rs)) in
  let rs1 := snd (candidate rs) in
  let noiseValue := noise (x * (2 / 100)) (z * (2 / 100)) in
  (fst (placeTree rs) = Normal None <-> noiseValue < - (3 / 10))
  /\ (noiseValue < - (3 / 10) -> placeTree rs = (Normal None, rs1))
  /\ (~ noiseValue < - (3 / 10) ->
      exists (index : Z) (createTreeFn : Rand Group) (tree : Tree Group),
        index = Z.rem (Int_part ((noiseValue + 1) * (15 / 10))) 3
        /\ index = (Int_part ((noiseValue + 1) * (15 / 10)) mod 3)%Z
        /\ (0 <= index < 3)%Z
        /\ JS.get treeTypes index = Some createTreeFn
        /\ In createTreeFn treeTypes
        /\ fst (placeTree rs) = Normal (Some tree)
        /\ group tree = fst (createTreeFn rs1)
        /\ position tree
           = THREE.mkVector3 (x + noiseValue * 10) 0 (z + noiseValue * 10)).
Proof.
  intros x z rs1 noiseValue.
  assert (Hdrop : noiseValue < - (3 / 10) -> placeTree rs = (Normal None, rs1)).
  { intros Hlow. unfold Trees.placeTree, bind at 1.
    subst noiseValue x z rs1. destruct (candidate rs) as [[cx cz] rs1].
    simpl in *. rewrite ltb_true by exact Hlow. reflexivity. }
  assert (Hkeep : ~ noiseValue < - (3 / 10) ->
      exists (index : Z) (createTreeFn : Rand Group) (tree : Tree Group),
        index = Z.rem (Int_part ((noiseValue + 1) * (15 / 10))) 3
        /\ index = (Int_part ((noiseValue + 1) * (15 / 10)) mod 3)%Z
        /\ (0 <= index < 3)%Z
        /\ JS.get treeTypes index = Some createTreeFn
        /\ In createTreeFn treeTypes
        /\ fst (placeTree rs) = Normal (Some tree)
        /\ group tree = fst (createTreeFn rs1)
        /\ position tree
           = THREE.mkVector3 (x + noiseValue * 10) 0 (z + noiseValue * 10)).
  { intros Hhigh.
    assert (Hn : - (3 / 10) <= noiseValue) by lra.
    destruct (treeTypeIndex_valid noiseValue Hn)
      as [Hrange [createTreeFn [Hget Hin]]].
    unfold Trees.placeTree, bind at 1.
    subst noiseValue x z rs1. destruct (candidate rs) as [[cx cz] rs1].
    simpl fst in *. simpl snd in *.
    rewrite ltb_false by exact Hn. rewrite Hget.
    unfold bind at 1. destruct (createTreeFn rs1) as [g rs2] eqn:Hg.
    unfold bind, random, ret. simpl.
    eexists. exists createTreeFn. eexists.
    split; [ reflexivity | ].
    split.
    { apply Z.rem_mod_nonneg; [ | lia ].
      pose proof (floor_positive ((noise (cx * (2 / 100)) (cz * (2 / 100)) + 1)
                                  * (15 / 10))) as Hpos.
      unfold JS.floor in Hpos. assert (Hone : (1 <= Int_part
        ((noise (cx * (2 / 100)) (cz * (2 / 100)) + 1) * (15 / 10)))%Z)
        by (apply Hpos; lra).
      lia. }
    split; [ exact Hrange | ].
    split; [ exact Hget | ].
    split; [ exact Hin | ].
    split; [ reflexivity | ].
    split; [ simpl; rewrite Hg; reflexivity | reflexivity ]. }
  split; [ | split; assumption ].
  split.
  - intros Hnone.
    destruct (Rlt_dec noiseValue (- (3 / 10))) as [Hlow | Hhigh];
      [ exact Hlow | ].
    destruct (Hkeep Hhigh) as [i [fn [tree [_ [_ [_ [_ [_ [Hplaced _]]]]]]]]].
    rewrite Hplaced in Hnone. discriminate.
  - intros Hlow. rewrite (Hdrop Hlow). reflexivity.
Qed.

(** The index is what [%] gives on the two numbers of the source. *)
Lemma treeTypeIndex_rem (noiseValue : R) :
  IZR (treeTypeIndex noiseValue)
  = JS.rem (IZR (JS.floor ((noiseValue + 1) * (15 / 10))))
           (INR (length treeTypes)).
Proof.
  unfold Trees.treeTypeIndex. rewrite INR_IZR_INZ.
  symmetry. apply rem_integers. simpl. lia.
Qed.

(** Every iteration ends normally. *)
Lemma placeTree_normal (rs : RandomSource) :
  exists placed, fst (placeTree rs) = Normal placed.
Proof.
  pose proof (placeTree_cases rs) as [Hdrop Hkeep].
  cbv zeta in Hdrop, Hkeep.
  destruct (Rlt_dec
              (noise (fst (fst (candidate rs)) * (2 / 100))
                     (snd (fst (candidate rs)) * (2 / 100)))
              (- (3 / 10))) as [Hlow | Hhigh].
  - exists None. rewrite (Hdrop Hlow). reflexivity.
  - destruct (Hkeep Hhigh) as [tree Htree].
    exists (Some tree). exact Htree.
Qed.

(** The whole loop ends normally: [createProceduralTrees] returns a group
  and never throws. *)
Lemma createProceduralTrees_normal (count : nat) (treesGroup : list (Tree Group))
    (rs : RandomSource) :
  exists trees,
    fst (createProceduralTrees noise Group createPineTree createBroadleafTree
           createSimpleTree count treesGroup rs) = Normal trees.
Proof.
  revert treesGroup rs.
  induction count as [ | n IH ]; intros treesGroup rs.
  - exists treesGroup. reflexivity.
  - simpl. unfold bind.
    destruct (placeTree_normal rs) as [placed Hplaced].
    destruct (placeTree rs) as [c rs'].
    simpl in Hplaced. subst c.
    destruct placed as [tree | ]; apply IH.
Qed.

End TreesFacts.

(** ** The properties on the sample scenes *)

(** C1 on the sample controller: noon plus a day and a half, then a
  quarter of the 240-second cycle. *)
Lemma C1_setTimeOfDay_then_update_witness :
  DayNight.getTimeOfDay
    (DayNight.update Samples.lookAt 60
       (DayNight.setTimeOfDay (3 / 2) Samples.cycle))
  = frac_part (3 / 2 + 60 / DayNight.dayDuration
                              (DayNight.params Samples.cycle)).
Proof.
  apply C1_setTimeOfDay_then_update.
  - lra.
  - lra.
  - reflexivity.
  - simpl. lra.
Defined.

(** On the sample controller that is a quarter before the end of the
  cycle. *)
Lemma sample_time_of_day :
  DayNight.getTimeOfDay
    (DayNight.update Samples.lookAt 60
       (DayNight.setTimeOfDay (3 / 2) Samples.cycle))
  = 3 / 4.
Proof.
  rewrite (timeOfDay_update_running unit Samples.lookAt 60
             (DayNight.setTimeOfDay (3 / 2) Samples.cycle) eq_refl).
  change (DayNight.timeOfDay
            (DayNight.params (DayNight.setTimeOfDay (3 / 2) Samples.cycle)))
    with (JS.rem (3 / 2) 1).
  change (DayNight.dayDuration
            (DayNight.params (DayNight.setTimeOfDay (3 / 2) Samples.cycle)))
    with 240.
  assert (Hfirst : JS.rem (3 / 2) 1 = 1 / 2).
  { rewrite rem_one_nonneg by lra. unfold frac_part.
    replace (3 / 2) with (IZR 1 + 1 / 2) by (simpl; lra).
    rewrite Int_part_shift, Int_part_small by lra. simpl. lra. }
  rewrite Hfirst.
  rewrite rem_one_nonneg by lra. unfold frac_part.
  rewrite Int_part_small by lra. simpl. lra.
Qed.

(** C6 on the sample controller: [-5] is ignored, [120] is stored. *)
Lemma C6_setCycleSpeed_witness :
  DayNight.setCycleSpeed (-5) Samples.cycle = Samples.cycle
  /\ DayNight.dayDuration
       (DayNight.params (DayNight.setCycleSpeed 120 Samples.cycle)) = 120.
Proof.
  split.
  - apply (proj1 (C6_setCycleSpeed unit (-5) Samples.cycle)). lra.
  - apply (proj2 (C6_setCycleSpeed unit 120 Samples.cycle)). lra.
Defined.

(** C7 on the paused sample controller. *)
Lemma C7_update_paused_changes_nothing_witness :
  DayNight.update Samples.lookAt 1 Samples.pausedCycle = Samples.pausedCycle.
Proof.
  apply C7_update_paused_changes_nothing. reflexivity.
Defined.

(** C10 a quarter into the cycle, after [setupAudio]. *)
Lemma C10_ambient_volumes_witness :
  exists b' n' : Audio.AudioSource,
    Audio.birds
      (Audio.updateAudioForTimeOfDay (1 / 4) (Audio.setupAudio Audio.initial))
    = Some b'
    /\ Audio.nightSource
         (Audio.updateAudioForTimeOfDay (1 / 4)
            (Audio.setupAudio Audio.initial))
       = Some n'
    /\ Audio.volume b' = 5 / 10 * Rmax 0 (sin (2 * PI * (1 / 4)))
    /\ Audio.volume n' = 5 / 10 * (1 - Rmax 0 (sin (2 * PI * (1 / 4))))
    /\ 0 <= Audio.volume b' <= 5 / 10
    /\ 0 <= Audio.volume n' <= 5 / 10
    /\ Audio.volume b' + Audio.volume n' = 5 / 10.
Proof.
  apply (C10_ambient_volumes (1 / 4) (Audio.setupAudio Audio.initial)
           (Audio.mkAudioSource (5 / 10) true true true)
           (Audio.mkAudioSource 0 true true true));
    reflexivity.
Defined.

(** C9 on the sample poses: one pose leaves the right hand alone, and
  shows the left hand for good. *)
Lemma C9_hands_follow_controllers_witness :
  Player.hand 1 (Player.updateHands [Samples.grip0] Player.createPlayer)
  = Player.hand 1 Player.createPlayer
  /\ Player.shown 0
       (Player.frames [[]; [Samples.grip0]; []] Player.createPlayer) = true
  /\ (exists h',
        Player.hand 1
          (Player.updateHands [Samples.grip0; Samples.grip1]
                              Player.createPlayer) = Some h'
        /\ Player.visible h' = true
        /\ Player.position h' = Player.controllerPosition Samples.grip1
        /\ Player.quaternion h' = Player.controllerQuaternion Samples.grip1).
Proof.
  destruct C9_hands_follow_controllers
    as [_ [Hpresent [Habsent [Hseen _]]]].
  split; [ | split ].
  - apply Habsent. simpl. lia.
  - apply Hseen; [ lia | ].
    exists [Samples.grip0]. split; [ simpl; auto | simpl; lia ].
  - apply (Hpresent [Samples.grip0; Samples.grip1] Player.createPlayer 1%nat
             Samples.grip1 (Player.rightHand Player.createPlayer));
      reflexivity.
Defined.

(** C8 on the sample fireflies: a first frame and a later frame at the
  same clock reading leave the same fireflies, and the second firefly of
  the group is there with the scale of index [1]. *)
Lemma C8_fireflies_stateless_replay_witness :
  Fireflies.update 0 5000 (Fireflies.run [] Samples.swarm)
  = Fireflies.update (1 / 60) 5000
      (Fireflies.run [(1 / 60, 4000)] Samples.swarmLater)
  /\ exists f,
       nth_error (Fireflies.update 0 5000 (Fireflies.run [] Samples.swarm)) 1
       = Some f
       /\ Fireflies.scale f
          = (let s := 8 / 10 + sin (5000 * (1 / 1000) * 2 + INR 1) * (2 / 10)
             in THREE.mkVector3 s s s).
Proof.
  destruct (C8_fireflies_stateless_replay
              [] [(1 / 60, 4000)] 0 (1 / 60) 5000
              Samples.swarm Samples.swarmLater eq_refl)
    as [Hsame [_ Hform]].
  split; [ exact Hsame | ].
  destruct (Hform 1%nat
              (Fireflies.mkFirefly (THREE.mkVector3 2 1 3)
                                   (THREE.mkVector3 1 1 1) Samples.glow)
              eq_refl) as [f [Hf [_ [_ Hscale]]]].
  exists f. split; [ exact Hf | exact Hscale ].
Defined.

(** C5 on a one-vertex buffer, with a draw of [0]. *)
Lemma C5_height_of_vertex_witness :
  nth_error
    (fst (Terrain.applyHeightMap Samples.slopeNoise [100; 7; 0] 5 zeros))
    (3 * 0 + 1)
  = Some ((Samples.slopeNoise (100 * (1 / 100)) (0 * (1 / 100)) * (5 / 10)
           + Samples.slopeNoise (100 * (5 / 100)) (0 * (5 / 100)) * (25 / 100)
           + Samples.slopeNoise (100 * (2 / 10)) (0 * (2 / 10)) * (125 / 1000))
          * 5).
Proof.
  apply (C5_height_of_vertex Samples.slopeNoise [100; 7; 0] 5 zeros 0%nat
           100 7 0 eq_refl eq_refl eq_refl).
  unfold zeros. lra.
Defined.

(** C4 on a flat noise field: the candidate is kept and gets the second
  constructor. *)
Lemma C4_tree_placement_witness :
  exists (index : Z) (createTreeFn : Rand nat) (tree : Trees.Tree nat),
    index = Z.rem (Int_part ((0 + 1) * (15 / 10))) 3
    /\ index = (Int_part ((0 + 1) * (15 / 10)) mod 3)%Z
    /\ (0 <= index < 3)%Z
    /\ JS.get (Trees.treeTypes nat Samples.pine Samples.broadleaf
                               Samples.simple) index
       = Some createTreeFn
    /\ In createTreeFn
          (Trees.treeTypes nat Samples.pine Samples.broadleaf Samples.simple)
    /\ fst (Trees.placeTree Samples.flatNoise nat Samples.pine
                            Samples.broadleaf Samples.simple zeros)
       = Trees.Normal (Some tree)
    /\ Trees.group tree = fst (createTreeFn (snd (Trees.candidate zeros)))
    /\ Trees.position tree
       = THREE.mkVector3 (fst (fst (Trees.candidate zeros)) + 0 * 10) 0
                         (snd (fst (Trees.candidate zeros)) + 0 * 10).
Proof.
  apply (proj2 (proj2 (C4_tree_placement Samples.flatNoise nat Samples.pine
                         Samples.broadleaf Samples.simple zeros))).
  unfold Samples.flatNoise. lra.
Defined.

(** ** More on the day-night cycle controller *)

Section DayNightMore.

Import DayNight.

Variable Object3D : Type.
Variable lookAt : THREE.Vector3 -> Object3D -> THREE.Vector3 -> Object3D.

Local Abbreviation State := (DayNight.State Object3D).
Local Abbreviation update := (DayNight.update lookAt).

(** The day factor that [updateLighting], [updateSkyColors] and
  [updateStars] each compute from the time of day. *)
Lemma dayFactor_night (t : R) :
  1 / 2 <= t <= 1 -> JS.max 0 (sin (t * PI * 2)) = 0.
Proof.
  intros Ht. unfold JS.max.
  pose proof PI_RGT_0 as Hpi.
  assert (Hsin : sin (t * PI * 2) <= 0).
  { apply sin_le_0; nra. }
  apply Rmax_left. exact Hsin.
Qed.

Lemma lerp_one (c d : THREE.Color) : THREE.lerp c d 1 = d.
Proof.
  destruct c as [cr cg cb], d as [dr dg db]. unfold THREE.lerp. simpl.
  f_equal; ring.
Qed.

(** What a running [update] leaves: every light, the ambient light, the
  uniforms and the stars are computed from the new parameters alone. *)
Lemma update_running (delta : R) (s : State) :
  paused (params s) = false ->
  let p := params (update delta s) in
  let dayFactor := JS.max 0 (sin (timeOfDay p * PI * 2)) in
  sunLight (update delta s)
  = mkDirectionalLight
      (THREE.mkVector3 (cos (timeOfDay p * PI * 2) * 5)
                       (sin (timeOfDay p * PI * 2) * 10) 1)
      (dayLightIntensity p * dayFactor) (dayLightColor p)
  /\ moonLight (update delta s)
     = mkDirectionalLight
         (THREE.mkVector3 (- cos (timeOfDay p * PI * 2) * 5)
                          (- sin (timeOfDay p * PI * 2) * 10) (-1))
         (nightLightIntensity p * (1 - dayFactor)) (nightLightColor p)
  /\ ambientLight (update delta s)
     = mkAmbientLight
         (dayAmbientIntensity p * dayFactor
          + nightAmbientIntensity p * (1 - dayFactor))
         (THREE.lerp (dayAmbientColor p) (nightAmbientColor p)
                     (1 - dayFactor))
  /\ skyDome (update delta s) = updateSkyColors (skyDome s) p
  /\ stars (update delta s) = updateStars (stars s) (timeOfDay p).
Proof.
  intros Hrun. cbv zeta.
  rewrite (params_update_running Object3D lookAt delta s Hrun).
  unfold DayNight.update. rewrite Hrun.
  repeat split.
Qed.

Lemma updateSkyColors_twice (dome : option SkyDome) (p q : CycleParams) :
  updateSkyColors (updateSkyColors dome p) q = updateSkyColors dome q.
Proof.
  destruct dome as [ [top bottom] | ]; [ | reflexivity ].
  destruct top, bottom; reflexivity.
Qed.

Lemma updateStars_twice (st : option Stars) (t u : R) :
  updateStars (updateStars st t) u = updateStars st u.
Proof.
  destruct st as [ [v m] | ]; [ | reflexivity ].
  destruct m; reflexivity.
Qed.

(** Everything but the three fields the methods write stays as
  [cycleParams] is initialised. *)
Lemma reachable_constants (s : State) :
  Reachable Object3D lookAt s ->
  set_dayDuration 240 (set_timeOfDay (5 / 10) (set_paused false (params s)))
  = cycleParams0.
Proof.
  induction 1 as [ sun dome vs | delta s _ IH | time s _ IH | s _ IH
                 | d s _ IH ].
  - reflexivity.
  - destruct (paused (params s)) eqn:Hp.
    + rewrite (update_paused Object3D lookAt delta s Hp). exact IH.
    + rewrite (params_update_running Object3D lookAt delta s Hp). exact IH.
  - exact IH.
  - exact IH.
  - unfold setCycleSpeed. destruct (JS.gtb d 0); exact IH.
Qed.

(** X1: [togglePause] twice gives the state back; the first call returns the
  negation of the flag and the second the flag itself. *)
Theorem togglePause_twice (s : State) :
  snd (togglePause (snd (togglePause s))) = s
  /\ fst (togglePause s) = negb (paused (params s))
  /\ fst (togglePause (snd (togglePause s))) = paused (params s).
Proof.
  destruct s as [p sun moon amb dome st vs]. destruct p.
  unfold togglePause, set_params, set_paused. simpl.
  rewrite negb_involutive. repeat split.
Qed.

(** X2: Two running updates leave the same time of day, lights, ambient
  light, sky uniforms and stars as one update by the sum of the two
  steps. *)
Theorem update_steps_add (dt1 dt2 : R) (s : State) :
  paused (params s) = false ->
  0 < dayDuration (params s) ->
  0 <= timeOfDay (params s) ->
  0 <= dt1 -> 0 <= dt2 ->
  params (update dt2 (update dt1 s)) = params (update (dt1 + dt2) s)
  /\ sunLight (update dt2 (update dt1 s)) = sunLight (update (dt1 + dt2) s)
  /\ moonLight (update dt2 (update dt1 s)) = moonLight (update (dt1 + dt2) s)
  /\ ambientLight (update dt2 (update dt1 s))
     = ambientLight (update (dt1 + dt2) s)
  /\ skyDome (update dt2 (update dt1 s)) = skyDome (update (dt1 + dt2) s)
  /\ stars (update dt2 (update dt1 s)) = stars (update (dt1 + dt2) s).
Proof.
  intros Hrun Hd Ht Hdt1 Hdt2.
  assert (Hrun1 : paused (params (update dt1 s)) = false).
  { rewrite (params_update_running Object3D lookAt dt1 s Hrun). exact Hrun. }
  assert (Hparams :
            params (update dt2 (update dt1 s)) = params (update (dt1 + dt2) s)).
  { rewrite (params_update_running Object3D lookAt dt2 _ Hrun1).
    rewrite (params_update_running Object3D lookAt dt1 s Hrun).
    rewrite (params_update_running Object3D lookAt (dt1 + dt2) s Hrun).
    simpl.
    pose proof (quotient_nonneg dt1 _ Hdt1 Hd) as Hq1.
    pose proof (quotient_nonneg dt2 _ Hdt2 Hd) as Hq2.
    set (D := dayDuration (params s)) in *.
    set (t := timeOfDay (params s)) in *.
    assert (Htime : JS.rem (JS.rem (t + dt1 / D) 1 + dt2 / D) 1
                    = JS.rem (t + (dt1 + dt2) / D) 1).
    { rewrite (rem_one_nonneg (t + dt1 / D)) by lra.
      pose proof (frac_part_range (t + dt1 / D)) as Hf.
      rewrite rem_one_nonneg by lra.
      rewrite frac_part_absorb.
      replace (t + (dt1 + dt2) / D) with (t + dt1 / D + dt2 / D)
        by (field; lra).
      rewrite rem_one_nonneg by lra. reflexivity. }
    unfold set_timeOfDay. simpl. rewrite Htime. reflexivity. }
  destruct (update_running dt2 (update dt1 s) Hrun1)
    as [Hs2 [Hm2 [Ha2 [Hd2 Hst2]]]].
  destruct (update_running (dt1 + dt2) s Hrun)
    as [Hs [Hm [Ha [Hdo Hst]]]].
  destruct (update_running dt1 s Hrun) as [_ [_ [_ [Hd1 Hst1]]]].
  cbv zeta in *.
  rewrite Hs2, Hm2, Ha2, Hd2, Hst2, Hs, Hm, Ha, Hdo, Hst, Hd1, Hst1.
  rewrite updateSkyColors_twice, updateStars_twice, Hparams.
  repeat split.
Qed.

(** X3: A running update by a whole number of cycle durations brings the time
  of day back to where it was. *)
Theorem update_whole_cycles (k : nat) (s : State) :
  paused (params s) = false ->
  0 < dayDuration (params s) ->
  0 <= getTimeOfDay s < 1 ->
  getTimeOfDay (update (INR k * dayDuration (params s)) s) = getTimeOfDay s.
Proof.
  intros Hrun Hd Ht.
  rewrite (timeOfDay_update_running Object3D lookAt _ s Hrun).
  unfold getTimeOfDay in *.
  replace (INR k * dayDuration (params s) / dayDuration (params s))
    with (INR k) by (field; lra).
  pose proof (pos_INR k) as Hk.
  rewrite rem_one_nonneg by lra.
  rewrite Rplus_comm, INR_IZR_INZ, frac_part_shift.
  unfold frac_part. rewrite Int_part_small by exact Ht. simpl. ring.
Qed.

(** X4: When a running update lands in the second half of the cycle (a time
  of day from [0.5] to [1]), the sun light is off, the moon light and the
  ambient light are at their night values, the stars are shown at full
  opacity and the sky uniforms that exist hold the night colours. *)
Theorem update_second_half_is_night (delta : R) (s : State) :
  paused (params s) = false ->
  1 / 2 <= getTimeOfDay (update delta s) <= 1 ->
  intensity (sunLight (update delta s)) = 0
  /\ intensity (moonLight (update delta s)) = nightLightIntensity (params s)
  /\ ambientLight (update delta s)
     = mkAmbientLight (nightAmbientIntensity (params s))
                      (nightAmbientColor (params s))
  /\ stars (update delta s)
     = option_map (fun st => mkStars true (option_map (fun _ => 1) (material st)))
                  (stars s)
  /\ skyDome (update delta s)
     = option_map
         (fun uniforms =>
            mkSkyDome
              (option_map (fun _ => nightSkyTop (params s)) (topColor uniforms))
              (option_map (fun _ => nightSkyBottom (params s))
                          (bottomColor uniforms)))
         (skyDome s).
Proof.
  intros Hrun Hnight.
  destruct (update_running delta s Hrun) as [Hs [Hm [Ha [Hd Hst]]]].
  cbv zeta in *. unfold getTimeOfDay in Hnight.
  pose proof (dayFactor_night _ Hnight) as Hzero.
  rewrite Hs, Hm, Ha, Hd, Hst.
  unfold updateSkyColors, updateStars. rewrite Hzero.
  rewrite (params_update_running Object3D lookAt delta s Hrun). simpl.
  replace (1 - 0) with 1 by ring. rewrite !lerp_one.
  split; [ ring | ]. split; [ ring | ].
  split; [ f_equal; ring | ].
  split.
  - destruct (stars s) as [ [v m] | ]; [ | reflexivity ]. simpl.
    unfold JS.ltb. destruct (Rlt_dec 0 (1 / 10)) as [_ | Hf]; [ | lra ].
    destruct m; [ | reflexivity ]. simpl.
    unfold JS.max. rewrite Rmax_right by lra.
    do 3 f_equal. field.
  - destruct (skyDome s) as [ [top bottom] | ]; [ | reflexivity ].
    destruct top, bottom; reflexivity.
Qed.

(** X5: In every state the controller goes through, a running update leaves
  the sun light's intensity in [[0, 2.5]], the moon light's in [[0, 0.5]]
  and the ambient light's in [[0.5, 1.5]]; the sun and moon intensities,
  each as a share of its maximum, add up to one. *)
Theorem update_intensity_bounds (delta : R) (s : State) :
  Reachable Object3D lookAt s ->
  paused (params s) = false ->
  0 <= intensity (sunLight (update delta s)) <= 25 / 10
  /\ 0 <= intensity (moonLight (update delta s)) <= 5 / 10
  /\ 5 / 10 <= ambientIntensity (ambientLight (update delta s)) <= 15 / 10
  /\ intensity (sunLight (update delta s)) / (25 / 10)
     + intensity (moonLight (update delta s)) / (5 / 10) = 1.
Proof.
  intros Hreach Hrun.
  destruct (update_running delta s Hrun) as [Hs [Hm [Ha _]]].
  cbv zeta in *. rewrite Hs, Hm, Ha. simpl.
  assert (Hdelta : Reachable Object3D lookAt (update delta s))
    by (apply reach_update; exact Hreach).
  pose proof (reachable_constants _ Hdelta) as Hconst.
  assert (H1 : dayLightIntensity (params (update delta s)) = 25 / 10)
    by (apply (f_equal dayLightIntensity) in Hconst; exact Hconst).
  assert (H2 : nightLightIntensity (params (update delta s)) = 5 / 10)
    by (apply (f_equal nightLightIntensity) in Hconst; exact Hconst).
  assert (H3 : dayAmbientIntensity (params (update delta s)) = 15 / 10)
    by (apply (f_equal dayAmbientIntensity) in Hconst; exact Hconst).
  assert (H4 : nightAmbientIntensity (params (update delta s)) = 5 / 10)
    by (apply (f_equal nightAmbientIntensity) in Hconst; exact Hconst).
  rewrite H1, H2, H3, H4.
  pose proof (dayFactor_range (timeOfDay (params (update delta s)))) as Hf.
  set (dayFactor :=
         JS.max 0 (sin (timeOfDay (params (update delta s)) * PI * 2))) in *.
  repeat split; lra.
Qed.

(** X6: After a running update the stars are shown exactly when their opacity
  is positive, and the opacity is in [[0, 1]]. *)
Theorem update_stars_opacity (delta : R) (s : State) (st : Stars)
    (opacity : R) :
  paused (params s) = false ->
  stars (update delta s) = Some st ->
  material st = Some opacity ->
  0 <= opacity <= 1 /\ (visible st = true <-> 0 < opacity).
Proof.
  intros Hrun Hst Hmat.
  destruct (update_running delta s Hrun) as [_ [_ [_ [_ Hstars]]]].
  cbv zeta in Hstars. rewrite Hstars in Hst. unfold updateStars in Hst.
  pose proof (dayFactor_range (timeOfDay (params (update delta s)))) as Hf.
  set (dayFactor :=
         JS.max 0 (sin (timeOfDay (params (update delta s)) * PI * 2))) in *.
  destruct (stars s) as [ [v m] | ]; [ | discriminate ].
  injection Hst as <-. simpl in Hmat |- *.
  destruct m as [ o | ]; [ | discriminate ].
  injection Hmat as <-.
  unfold JS.max, JS.ltb.
  destruct (Rlt_dec dayFactor (1 / 10)) as [Hlt | Hge].
  - rewrite Rmax_right by lra.
    split; [ | split; [ intros _ | reflexivity ] ].
    + split.
      * apply Rmult_le_pos; lra.
      * apply (Rmult_le_reg_r (1 / 10)); [ lra | ].
        unfold Rdiv. rewrite Rmult_assoc, Rinv_l by lra. lra.
    + apply Rmult_lt_0_compat; lra.
  - rewrite Rmax_left by lra.
    replace (0 / (1 / 10)) with 0 by field.
    split; [ lra | split; [ discriminate | lra ] ].
Qed.

(** X7: After a running update the moon light is at the point opposite to the
  sun light, and the sun light is on the ellipse with half axes [5] and
  [10] in the plane [z = 1]. *)
Theorem update_sun_moon_opposite (delta : R) (s : State) :
  paused (params s) = false ->
  let sun := position (sunLight (update delta s)) in
  let moon := position (moonLight (update delta s)) in
  moon = THREE.mkVector3 (- THREE.x sun) (- THREE.y sun) (- THREE.z sun)
  /\ (THREE.x sun / 5) * (THREE.x sun / 5)
     + (THREE.y sun / 10) * (THREE.y sun / 10) = 1
  /\ THREE.z sun = 1.
Proof.
  intros Hrun.
  destruct (update_running delta s Hrun) as [Hs [Hm _]].
  cbv zeta in *. rewrite Hs, Hm. simpl.
  set (a := timeOfDay (params (update delta s)) * PI * 2).
  pose proof (sin2_cos2 a) as Hunit. unfold Rsqr in Hunit.
  split; [ f_equal; ring | ].
  split; [ | reflexivity ].
  replace (cos a * 5 / 5) with (cos a) by field.
  replace (sin a * 10 / 10) with (sin a) by field.
  lra.
Qed.


End DayNightMore.

(** ** More on the ambient audio *)

Section AudioMore.

Import Audio.

(** X9: [adjustWindForElevation] does nothing without a wind source; with one
  it sets the wind's volume to [0.3] up to elevation [0], to
  [0.3 + elevation / 50] between [0] and [20] and to [0.7] from elevation
  [20] on, always within [[0.3, 0.7]], and touches nothing else. *)
Theorem adjustWindForElevation_volume (elevation : R) (s : State) :
  (wind s = None -> adjustWindForElevation elevation s = s)
  /\ (forall w, wind s = Some w ->
      exists v,
        adjustWindForElevation elevation s
        = mkState (birds s) (Some (setVolume v w)) (nightSource s)
                  (footsteps s) (dayNightState s)
        /\ 3 / 10 <= v <= 7 / 10
        /\ (elevation <= 0 -> v = 3 / 10)
        /\ (0 <= elevation <= 20 -> v = 3 / 10 + elevation / 50)
        /\ (20 <= elevation -> v = 7 / 10)).
Proof.
  split.
  - intros Hnone. unfold adjustWindForElevation. rewrite Hnone. reflexivity.
  - intros w Hw. unfold adjustWindForElevation. rewrite Hw.
    eexists. split; [ reflexivity | ].
    unfold JS.max, JS.min.
    destruct (Rle_dec 1 (elevation / 20)) as [Hhigh | Hlow].
    + rewrite Rmin_left by lra. rewrite Rmax_right by lra.
      repeat split; intros; lra.
    + rewrite Rmin_right by lra.
      destruct (Rle_dec (elevation / 20) 0) as [Hneg | Hpos].
      * rewrite Rmax_left by lra. repeat split; intros; lra.
      * rewrite Rmax_right by lra. repeat split; intros; lra.
Qed.

(** X10: With the birds and the night ambience present,
  [updateAudioForTimeOfDay t] leaves [dayNightState] at ['day'] exactly
  when [sin (2 PI t)] is above [0.3], whatever it was before; it never
  touches the wind or the footsteps, and a source that is not playing
  keeps its volume.  Without one of the two sources it does nothing. *)
Theorem updateAudioForTimeOfDay_state (t : R) (s : State) :
  (forall b n,
     birds s = Some b -> nightSource s = Some n ->
     (dayNightState (updateAudioForTimeOfDay t s) = day
      <-> 3 / 10 < sin (t * PI * 2))
     /\ wind (updateAudioForTimeOfDay t s) = wind s
     /\ footsteps (updateAudioForTimeOfDay t s) = footsteps s
     /\ (isPlaying b = false -> birds (updateAudioForTimeOfDay t s) = Some b)
     /\ (isPlaying n = false ->
         nightSource (updateAudioForTimeOfDay t s) = Some n))
  /\ (birds s = None \/ nightSource s = None ->
      updateAudioForTimeOfDay t s = s).
Proof.
  split.
  - intros b n Hb Hn. unfold updateAudioForTimeOfDay. rewrite Hb, Hn. simpl.
    split.
    + unfold JS.gtb, JS.ltb, JS.max.
      destruct (Rlt_dec (3 / 10) (Rmax 0 (sin (t * PI * 2)))) as [Hday | Hnight].
      * assert (Hsin : 3 / 10 < sin (t * PI * 2)).
        { destruct (Rle_dec 0 (sin (t * PI * 2))) as [Hp | Hq].
          - rewrite Rmax_right in Hday by lra. exact Hday.
          - rewrite Rmax_left in Hday by lra. lra. }
        destruct (dayNightState s); simpl; split; auto.
      * assert (Hsin : ~ 3 / 10 < sin (t * PI * 2)).
        { intros Hc. apply Hnight. rewrite Rmax_right by lra. exact Hc. }
        destruct (dayNightState s); simpl; split; intros Hx;
          try discriminate; contradiction.
    + split; [ reflexivity | ]. split; [ reflexivity | ].
      split; intros Hp; rewrite Hp; reflexivity.
  - intros [Hnone | Hnone]; unfold updateAudioForTimeOfDay; rewrite Hnone.
    + reflexivity.
    + destruct (birds s); reflexivity.
Qed.

(** X11: [playFootstepSounds] starts the footsteps when the player moves and
  they have a buffer, never stops them, changes nothing else and does
  nothing when called again with the same argument. *)
Theorem playFootstepSounds_starts (isMoving : bool) (s : State) :
  (forall f, footsteps s = Some f ->
     playFootstepSounds isMoving s
     = mkState (birds s) (wind s) (nightSource s)
         (Some (mkAudioSource (volume f) (loop f) (buffer f)
                  (isPlaying f || (isMoving && buffer f))))
         (dayNightState s))
  /\ (footsteps s = None -> playFootstepSounds isMoving s = s)
  /\ playFootstepSounds isMoving (playFootstepSounds isMoving s)
     = playFootstepSounds isMoving s.
Proof.
  assert (Hsome : forall m st f, footsteps st = Some f ->
     playFootstepSounds m st
     = mkState (birds st) (wind st) (nightSource st)
         (Some (mkAudioSource (volume f) (loop f) (buffer f)
                  (isPlaying f || (m && buffer f))))
         (dayNightState st)).
  { intros m st f Hf. unfold playFootstepSounds. rewrite Hf.
    destruct st as [sb sw sn sf sd]. simpl in Hf. subst sf.
    destruct f as [v l bf pl]. simpl.
    destruct bf, m, pl; reflexivity. }
  split; [ apply Hsome | ].
  split.
  - intros Hnone. unfold playFootstepSounds. rewrite Hnone. reflexivity.
  - destruct (footsteps s) as [ f | ] eqn:Hf.
    + rewrite (Hsome isMoving s f Hf).
      erewrite Hsome by reflexivity. simpl.
      destruct (isPlaying f), isMoving, (buffer f); reflexivity.
    + unfold playFootstepSounds. rewrite Hf. simpl. rewrite Hf. reflexivity.
Qed.

End AudioMore.

(** ** More on the player's hands *)

Section PlayerMore.

Import Player.

Lemma follow_follow (c c' : Controller) (h : Hand) :
  follow c (follow c' h) = follow c h.
Proof. reflexivity. Qed.

(** X12: After any sequence of frames a hand has the pose of the last frame
  that had a controller at its index, or is as it was if there was none;
  its scale is never changed, so the left hand stays mirrored. *)
Theorem frames_last_pose (fs : list (list Controller)) (p : Player)
    (i : nat) (h : Hand) :
  hand i p = Some h ->
  exists h',
    hand i (frames fs p) = Some h'
    /\ h' = match lastPose i fs with
            | Some c => follow c h
            | None => h
            end
    /\ scale h' = scale h.
Proof.
  revert p h. induction fs as [ | cs fs IH ]; intros p h Hh.
  - exists h. simpl. repeat split. exact Hh.
  - change (frames (cs :: fs) p) with (frames fs (updateHands cs p)).
    destruct (nth_error cs i) as [ c0 | ] eqn:Hc.
    + pose proof (updateHands_present cs p i c0 h Hh Hc) as Hnow.
      destruct (IH _ _ Hnow) as [h' [Hh' [Heq Hscale]]].
      exists h'. split; [ exact Hh' | ].
      simpl. rewrite Hc.
      destruct (lastPose i fs) as [ c | ].
      * split; [ rewrite Heq; apply follow_follow | ].
        rewrite Hscale. reflexivity.
      * split; [ exact Heq | ]. rewrite Hscale. reflexivity.
    + assert (Hlen : (length cs <= i)%nat) by (apply nth_error_None; exact Hc).
      pose proof (updateHands_absent cs p i Hlen) as Hnow.
      rewrite Hh in Hnow.
      destruct (IH _ _ Hnow) as [h' [Hh' [Heq Hscale]]].
      exists h'. split; [ exact Hh' | ].
      simpl. rewrite Hc.
      destruct (lastPose i fs) as [ c | ]; split; assumption.
Qed.

(** [updateHands] reads the first two controllers only. *)
Theorem updateHands_first_two (cs : list Controller) (p : Player) :
  updateHands cs p = updateHands (firstn 2 cs) p.
Proof.
  destruct cs as [ | c0 [ | c1 cs ] ]; reflexivity.
Qed.

End PlayerMore.

(** ** More on the fireflies *)

Section FirefliesMore.

Import Fireflies.

Lemma in_unit_tail (rs : RandomSource) :
  in_unit rs -> in_unit (fun n => rs (S n)).
Proof. intros Hrs n. apply Hrs. Qed.

Lemma createFirefly_draws (rs : RandomSource) :
  snd (createFirefly rs) = fun n => rs (S (S (S (S (S n))))).
Proof. reflexivity. Qed.

Lemma createFireflies_step (n : nat) (rs : RandomSource) :
  fst (createFireflies (S n) rs)
  = fst (createFirefly rs) :: fst (createFireflies n (snd (createFirefly rs))).
Proof.
  simpl. unfold bind, createFirefly, random, ret. simpl.
  destruct (createFireflies n (fun k => rs (S (S (S (S (S k)))))))
    as [fs rs2].
  reflexivity.
Qed.

(** X13: After [update] a firefly is on the circle of radius [1] around its
  original horizontal position, at most [0.5] above or below its original
  height, and scaled by one factor between [0.6] and [1] on all axes. *)
Theorem update_orbit (delta now : R) (cs : list Firefly) (k : nat)
    (f : Firefly) :
  nth_error (update delta now cs) k = Some f ->
  let d := userData f in
  (THREE.x (position f) - originalX d) * (THREE.x (position f) - originalX d)
  + (THREE.z (position f) - originalZ d) * (THREE.z (position f) - originalZ d)
  = 1
  /\ - (1 / 2) <= THREE.y (position f) - originalY d <= 1 / 2
  /\ exists factor,
       scale f = THREE.mkVector3 factor factor factor
       /\ 6 / 10 <= factor <= 1.
Proof.
  intros Hk. unfold update in Hk.
  destruct (forEach_nth _ 0 k cs f Hk) as [c [_ Hf]].
  subst f. unfold animate. simpl.
  set (t := now * (1 / 1000)).
  split.
  - pose proof (sin2_cos2 (t * (2 / 10) + (phase (userData c) + INR k)))
      as Hunit.
    unfold Rsqr in Hunit.
    set (a := t * (2 / 10) + (phase (userData c) + INR k)) in *.
    replace (originalX (userData c) + sin a * 1 - originalX (userData c))
      with (sin a) by ring.
    replace (originalZ (userData c) + cos a * 1 - originalZ (userData c))
      with (cos a) by ring.
    exact Hunit.
  - split.
    + pose proof (SIN_bound (t * speed (userData c) + phase (userData c)))
        as Hb.
      lra.
    + eexists. split; [ reflexivity | ].
      pose proof (SIN_bound (t * 2 + INR k)) as Hb. lra.
Qed.

(** X14: With draws in [[0, 1)], [createFireflies count] makes [count]
  fireflies; each starts at its recorded original position, between [40]
  and [70] from the vertical axis and between [0.5] and [5.5] high, with
  a speed between [0.2] and [0.7] and a phase between [0] and [2 PI]. *)
Theorem createFireflies_ranges (count : nat) (rs : RandomSource) :
  in_unit rs ->
  length (fst (createFireflies count rs)) = count
  /\ forall f, In f (fst (createFireflies count rs)) ->
       let d := userData f in
       position f = THREE.mkVector3 (originalX d) (originalY d) (originalZ d)
       /\ 40 * 40 <= originalX d * originalX d + originalZ d * originalZ d
          < 70 * 70
       /\ 5 / 10 <= originalY d < 55 / 10
       /\ 2 / 10 <= speed d < 7 / 10
       /\ 0 <= phase d < 2 * PI.
Proof.
  revert rs. induction count as [ | n IH ]; intros rs Hrs.
  - split; [ reflexivity | intros f [] ].
  - assert (Htail : in_unit (snd (createFirefly rs))).
    { rewrite createFirefly_draws. intros k. apply Hrs. }
    destruct (IH _ Htail) as [Hlen Hall].
    rewrite createFireflies_step.
    split; [ cbn [length]; rewrite Hlen; reflexivity | ].
    intros f [Hhead | Htl]; [ | apply Hall; exact Htl ].
    subst f. unfold createFirefly, bind, random, ret. simpl.
    pose proof (Hrs 0%nat) as H0. pose proof (Hrs 1%nat) as H1.
    pose proof (Hrs 2%nat) as H2. pose proof (Hrs 3%nat) as H3.
    pose proof (Hrs 4%nat) as H4. pose proof PI_RGT_0 as Hpi.
    split; [ reflexivity | ].
    split.
    + pose proof (sin2_cos2 (rs 1%nat * PI * 2)) as Hunit.
      unfold Rsqr in Hunit.
      set (a := rs 1%nat * PI * 2) in *.
      set (radius := 40 + rs 0%nat * 30).
      replace (cos a * radius * (cos a * radius)
               + sin a * radius * (sin a * radius))
        with (radius * radius * (sin a * sin a + cos a * cos a)) by ring.
      rewrite Hunit. subst radius. nra.
    + repeat split; nra.
Qed.

End FirefliesMore.

(** ** More on the terrain *)

Section TerrainMore.

Import Terrain.

Variable noise : R -> R -> R.

(** Induction over a buffer, three numbers at a time. *)
Lemma buffer_ind (P : list R -> Prop) :
  P [] -> (forall a, P [a]) -> (forall a b, P [a; b]) ->
  (forall a b c rest, P rest -> P (a :: b :: c :: rest)) ->
  forall l, P l.
Proof.
  intros H0 H1 H2 H3. fix IH 1.
  intros [ | a [ | b [ | c rest ] ] ].
  - exact H0.
  - apply H1.
  - apply H2.
  - apply H3. apply IH.
Qed.

Lemma applyHeightMap_length (vertices : list R) (intensity : R)
    (rs : RandomSource) :
  length (fst (applyHeightMap noise vertices intensity rs)) = length vertices.
Proof.
  revert rs. induction vertices as [ | a | a b | a b c rest IH ] using buffer_ind;
    intros rs; try reflexivity.
  rewrite applyHeightMap_step. simpl. rewrite IH. reflexivity.
Qed.

(** X15: With a noise field in [[-1, 1]] and an intensity that is not negative,
  [applyHeightMap] keeps the size of the buffer and every elevation it
  writes is within [0.875 * intensity] of zero. *)
Theorem applyHeightMap_elevation_bound (vertices : list R) (intensity : R)
    (rs : RandomSource) :
  (forall u v, -1 <= noise u v <= 1) ->
  0 <= intensity ->
  length (fst (applyHeightMap noise vertices intensity rs)) = length vertices
  /\ forall k height,
       (3 * k + 2 < length vertices)%nat ->
       nth_error (fst (applyHeightMap noise vertices intensity rs)) (3 * k + 1)
       = Some height ->
       - (875 / 1000 * intensity) <= height <= 875 / 1000 * intensity.
Proof.
  intros Hnoise Hint. split; [ apply applyHeightMap_length | ].
  intros k height Hk Hout.
  destruct (nth_error vertices (3 * k)) as [ x | ] eqn:Hx;
    [ | apply nth_error_None in Hx; lia ].
  destruct (nth_error vertices (3 * k + 1)) as [ y | ] eqn:Hy;
    [ | apply nth_error_None in Hy; lia ].
  destruct (nth_error vertices (3 * k + 2)) as [ z | ] eqn:Hz;
    [ | apply nth_error_None in Hz; lia ].
  destruct (applyHeightMap_vertex noise vertices intensity rs k x y z Hx Hy Hz)
    as [_ [Hheight _]].
  rewrite Hheight in Hout. injection Hout as <-.
  assert (Hbase : - (875 / 1000 * intensity) <= octaves noise x z intensity
                  <= 875 / 1000 * intensity).
  { unfold octaves.
    pose proof (Hnoise (x * (1 / 100)) (z * (1 / 100))) as Hn1.
    pose proof (Hnoise (x * (5 / 100)) (z * (5 / 100))) as Hn2.
    pose proof (Hnoise (x * (2 / 10)) (z * (2 / 10))) as Hn3.
    nra. }
  destruct (JS.gtb (rs k) (97 / 100)); nra.
Qed.

End TerrainMore.

Section TerrainBuffers.

Import Terrain.

Lemma in_unit_skip (n : nat) (rs : RandomSource) :
  in_unit rs -> in_unit (skip n rs).
Proof. intros Hrs k. apply Hrs. Qed.

(** [Math.floor(Math.random() * n)] is an index below [n]. *)
Lemma floor_unit_range (u : R) (n : nat) :
  0 <= u < 1 -> (0 < n)%nat ->
  (0 <= JS.floor (u * INR n) < Z.of_nat n)%Z.
Proof.
  intros Hu Hn. unfold JS.floor.
  assert (HnR : 0 < INR n) by (apply lt_0_INR; exact Hn).
  pose proof (Int_part_bounds (u * INR n)) as [Hlow Hup].
  split.
  - assert (Hlt : IZR (-1) < IZR (Int_part (u * INR n))) by (simpl; nra).
    apply lt_IZR in Hlt. lia.
  - apply lt_IZR. rewrite <- INR_IZR_INZ. nra.
Qed.

(** The vertex colour consumes draws and leaves a source that still
  draws from [[0, 1)]. *)
Lemma vertexColor_in_unit (height : R) (rs : RandomSource) :
  in_unit rs -> in_unit (snd (vertexColor height rs)).
Proof.
  intros Hrs. unfold vertexColor.
  destruct (JS.ltb height 0); [ intros k; apply Hrs | ].
  destruct (JS.ltb height 2); intros k; apply Hrs.
Qed.

Lemma applyTerrainColors_step (x height z : R) (rest : list R)
    (rs : RandomSource) :
  fst (applyTerrainColors (x :: height :: z :: rest) rs)
  = THREE.r (fst (vertexColor height rs))
    :: THREE.g (fst (vertexColor height rs))
    :: THREE.b (fst (vertexColor height rs))
    :: fst (applyTerrainColors rest (snd (vertexColor height rs))).
Proof.
  cbn [applyTerrainColors]. unfold bind at 1.
  destruct (vertexColor height rs) as [c rs1].
  unfold bind. cbn [fst snd].
  destruct (applyTerrainColors rest rs1) as [cs rs2].
  reflexivity.
Qed.

(** X16: [applyTerrainColors] writes three numbers for every whole vertex of
  the position buffer, and they are the colour that [vertexColor] gives
  for the elevation of that vertex. *)
Theorem applyTerrainColors_vertices (positions : list R) (rs : RandomSource) :
  in_unit rs ->
  length (fst (applyTerrainColors positions rs)) = (3 * (length positions / 3))%nat
  /\ forall k height,
       (3 * k + 2 < length positions)%nat ->
       nth_error positions (3 * k + 1) = Some height ->
       exists rs',
         in_unit rs'
         /\ nth_error (fst (applyTerrainColors positions rs)) (3 * k)
            = Some (THREE.r (fst (vertexColor height rs')))
         /\ nth_error (fst (applyTerrainColors positions rs)) (3 * k + 1)
            = Some (THREE.g (fst (vertexColor height rs')))
         /\ nth_error (fst (applyTerrainColors positions rs)) (3 * k + 2)
            = Some (THREE.b (fst (vertexColor height rs'))).
Proof.
  revert rs.
  induction positions as [ | a | a b | a b c rest IH ] using buffer_ind;
    intros rs Hrs.
  - split; [ reflexivity | simpl; intros; lia ].
  - split; [ reflexivity | simpl; intros; lia ].
  - split; [ reflexivity | simpl; intros; lia ].
  - rewrite applyTerrainColors_step.
    destruct (IH _ (vertexColor_in_unit b rs Hrs)) as [Hlen Hvert].
    split.
    + cbn [length]. rewrite Hlen.
      replace (S (S (S (length rest)))) with (length rest + 1 * 3)%nat by lia.
      rewrite Nat.div_add by lia. lia.
    + intros k height Hk Hh. destruct k as [ | k ].
      * simpl in Hh. injection Hh as ->.
        exists rs. split; [ exact Hrs | repeat split ].
      * replace (3 * S k)%nat with (S (S (S (3 * k)))) in * by lia.
        replace (S (S (S (3 * k))) + 1)%nat
          with (S (S (S (3 * k + 1)))) in * by lia.
        replace (S (S (S (3 * k))) + 2)%nat
          with (S (S (S (3 * k + 2)))) in * by lia.
        cbn [nth_error] in Hh |- *. cbn [length] in Hk.
        apply Hvert; [ lia | exact Hh ].
Qed.

(** X17: The colour of a vertex by elevation, for draws in [[0, 1)]: below
  [0] a blend of dirt and dark grass by a factor from [0.3] to [0.6];
  from [0] to below [2] the grass colour with each channel moved by at
  most [0.05]; from [2] on, without any draw, the blend of grass and the
  lighter tone by [(height - 2) / 3], which is the lighter tone itself
  from elevation [5] on. *)
Theorem vertexColor_ranges (height : R) (rs : RandomSource) :
  in_unit rs ->
  (height < 0 ->
   exists alpha,
     3 / 10 <= alpha < 6 / 10
     /\ fst (vertexColor height rs) = THREE.lerp dirtColor darkGrassColor alpha)
  /\ (0 <= height < 2 ->
      let c := fst (vertexColor height rs) in
      - (5 / 100) <= THREE.r c - THREE.r grassColor <= 5 / 100
      /\ - (5 / 100) <= THREE.g c - THREE.g grassColor <= 5 / 100
      /\ - (5 / 100) <= THREE.b c - THREE.b grassColor <= 5 / 100)
  /\ (2 <= height <= 5 ->
      vertexColor height rs
      = (THREE.lerp grassColor (THREE.ColorHex 0x7cad6d) ((height - 2) / 3),
         rs))
  /\ (5 <= height ->
      vertexColor height rs = (THREE.ColorHex 0x7cad6d, rs)).
Proof.
  intros Hrs.
  pose proof (Hrs 0%nat) as H0. pose proof (Hrs 1%nat) as H1.
  pose proof (Hrs 2%nat) as H2.
  split; [ | split; [ | split ] ].
  - intros Hh. rewrite vertexColor_low by exact Hh.
    exists (3 / 10 + rs 0%nat * (3 / 10)).
    split; [ lra | reflexivity ].
  - intros Hh. rewrite vertexColor_grass by exact Hh.
    unfold regularGrassColor, bind, random, ret. simpl. lra.
  - intros Hh. rewrite vertexColor_high by lra.
    unfold highAreaColor, ret, JS.min.
    rewrite Rmin_right by lra. reflexivity.
  - intros Hh. rewrite vertexColor_high by lra.
    unfold highAreaColor, ret, JS.min.
    rewrite Rmin_left by lra. rewrite lerp_one. reflexivity.
Qed.

Lemma randomizeVertices_step (i : nat) (x y z : R) (rest : list R)
    (rs : RandomSource) :
  fst (randomizeVertices i (x :: y :: z :: rest) rs)
  = if (i mod 9 =? 0)%nat
    then x + (rs 0%nat - 5 / 10) * (5 / 10) :: y
           :: z + (rs 1%nat - 5 / 10) * (5 / 10)
           :: fst (randomizeVertices (i + 3) rest (skip 2 rs))
    else x :: y :: z :: fst (randomizeVertices (i + 3) rest rs).
Proof.
  cbn [randomizeVertices]. destruct (i mod 9 =? 0)%nat.
  - unfold bind, random, ret.
    change (fun n : nat => rs (S (S n))) with (skip 2 rs).
    destruct (randomizeVertices (i + 3) rest (skip 2 rs)) as [l rs'].
    reflexivity.
  - unfold bind, ret.
    destruct (randomizeVertices (i + 3) rest rs) as [l rs'].
    reflexivity.
Qed.

Lemma randomizeVertices_vertex (k i : nat) (vertices : list R)
    (rs : RandomSource) (x y z : R) :
  in_unit rs ->
  nth_error vertices (3 * k) = Some x ->
  nth_error vertices (3 * k + 1) = Some y ->
  nth_error vertices (3 * k + 2) = Some z ->
  exists x' z',
    nth_error (fst (randomizeVertices i vertices rs)) (3 * k) = Some x'
    /\ nth_error (fst (randomizeVertices i vertices rs)) (3 * k + 1) = Some y
    /\ nth_error (fst (randomizeVertices i vertices rs)) (3 * k + 2) = Some z'
    /\ - (1 / 4) <= x' - x <= 1 / 4
    /\ - (1 / 4) <= z' - z <= 1 / 4
    /\ (((i + 3 * k) mod 9)%nat <> 0%nat -> x' = x /\ z' = z).
Proof.
  revert i vertices rs.
  induction k as [ | k IH ]; intros i vertices rs Hrs Hx Hy Hz.
  - destruct vertices as [ | x0 [ | y0 [ | z0 rest ] ] ]; try discriminate.
    simpl in Hx, Hy, Hz.
    injection Hx as ->. injection Hy as ->. injection Hz as ->.
    rewrite randomizeVertices_step.
    pose proof (Hrs 0%nat) as H0. pose proof (Hrs 1%nat) as H1.
    destruct (i mod 9 =? 0)%nat eqn:Hmod.
    + eexists. eexists. simpl.
      split; [ reflexivity | ]. split; [ reflexivity | ].
      split; [ reflexivity | ].
      split; [ lra | ]. split; [ lra | ].
      intros Hne. apply Nat.eqb_eq in Hmod.
      rewrite Nat.add_0_r in Hne. contradiction.
    + exists x, z. simpl. repeat split; lra.
  - replace (3 * S k)%nat with (S (S (S (3 * k)))) in * by lia.
    replace (S (S (S (3 * k))) + 1)%nat
      with (S (S (S (3 * k + 1)))) in * by lia.
    replace (S (S (S (3 * k))) + 2)%nat
      with (S (S (S (3 * k + 2)))) in * by lia.
    destruct vertices as [ | x0 [ | y0 [ | z0 rest ] ] ]; try discriminate.
    cbn [nth_error] in Hx, Hy, Hz.
    rewrite randomizeVertices_step.
    replace (i + S (S (S (3 * k))))%nat with (i + 3 + 3 * k)%nat by lia.
    destruct (i mod 9 =? 0)%nat; cbn [nth_error].
    + apply IH; [ apply in_unit_skip; exact Hrs | assumption .. ].
    + apply IH; assumption.
Qed.

(** X18: [createLowPolyPlane] keeps the elevation of every vertex, moves x and
  z by at most [0.25] each (for draws in [[0, 1)]), and moves only the
  vertices whose number is a multiple of three. *)
Theorem createLowPolyPlane_jitter (planeVertices : list R)
    (rs : RandomSource) (k : nat) (x y z : R) :
  in_unit rs ->
  nth_error planeVertices (3 * k) = Some x ->
  nth_error planeVertices (3 * k + 1) = Some y ->
  nth_error planeVertices (3 * k + 2) = Some z ->
  exists x' z',
    nth_error (fst (createLowPolyPlane planeVertices rs)) (3 * k) = Some x'
    /\ nth_error (fst (createLowPolyPlane planeVertices rs)) (3 * k + 1)
       = Some y
    /\ nth_error (fst (createLowPolyPlane planeVertices rs)) (3 * k + 2)
       = Some z'
    /\ - (1 / 4) <= x' - x <= 1 / 4
    /\ - (1 / 4) <= z' - z <= 1 / 4
    /\ ((k mod 3)%nat <> 0%nat -> x' = x /\ z' = z).
Proof.
  intros Hrs Hx Hy Hz.
  destruct (randomizeVertices_vertex k 0 planeVertices rs x y z Hrs Hx Hy Hz)
    as [x' [z' [Hx' [Hy' [Hz' [Hbx [Hbz Hfix]]]]]]].
  exists x', z'. unfold createLowPolyPlane.
  repeat (split; [ assumption | ]).
  intros Hk. apply Hfix.
  replace ((0 + 3 * k) mod 9)%nat with (3 * (k mod 3))%nat; [ lia | ].
  symmetry. apply (Nat.Div0.mul_mod_distr_l k 3 3).
Qed.

(** X19: On a buffer of [n > 0] whole vertices and for a draw in [[0, 1)], the
  random ground vertex that the grass, the mushrooms and the crystals read
  is vertex [floor (draw * n)] of the buffer: none of the three reads is
  out of range. *)
Theorem randomGroundVertex_in_range (groundVertices : list R)
    (rs : RandomSource) (n : nat) :
  in_unit rs ->
  length groundVertices = (3 * n)%nat ->
  (0 < n)%nat ->
  exists (k : nat) (x y z : R),
    fst (randomGroundVertex groundVertices rs) = (Some x, Some y, Some z)
    /\ (k < n)%nat
    /\ Z.of_nat k = Int_part (rs 0%nat * INR n)
    /\ nth_error groundVertices (3 * k) = Some x
    /\ nth_error groundVertices (3 * k + 1) = Some y
    /\ nth_error groundVertices (3 * k + 2) = Some z.
Proof.
  intros Hrs Hlen Hn.
  pose proof (floor_unit_range (rs 0%nat) n (Hrs 0%nat) Hn) as Hq.
  unfold JS.floor in Hq.
  set (k := Z.to_nat (Int_part (rs 0%nat * INR n))).
  assert (Hk : Z.of_nat k = Int_part (rs 0%nat * INR n))
    by (subst k; rewrite Z2Nat.id; lia).
  assert (Hkn : (k < n)%nat) by lia.
  destruct (nth_error groundVertices (3 * k)) as [ x | ] eqn:Hx;
    [ | apply nth_error_None in Hx; lia ].
  destruct (nth_error groundVertices (3 * k + 1)) as [ y | ] eqn:Hy;
    [ | apply nth_error_None in Hy; lia ].
  destruct (nth_error groundVertices (3 * k + 2)) as [ z | ] eqn:Hz;
    [ | apply nth_error_None in Hz; lia ].
  exists k, x, y, z.
  split; [ | repeat split; assumption ].
  unfold randomGroundVertex, bind, random, ret. simpl fst.
  rewrite Hlen.
  replace (INR (3 * n) / 3) with (INR n)
    by (rewrite mult_INR; simpl; field).
  unfold JS.floor. rewrite <- Hk.
  unfold JS.get.
  replace (Z.of_nat k * 3 <? 0)%Z with false by (symmetry; apply Z.ltb_ge; lia).
  replace (Z.of_nat k * 3 + 1 <? 0)%Z with false
    by (symmetry; apply Z.ltb_ge; lia).
  replace (Z.of_nat k * 3 + 2 <? 0)%Z with false
    by (symmetry; apply Z.ltb_ge; lia).
  replace (Z.to_nat (Z.of_nat k * 3)) with (3 * k)%nat by lia.
  replace (Z.to_nat (Z.of_nat k * 3 + 1)) with (3 * k + 1)%nat by lia.
  replace (Z.to_nat (Z.of_nat k * 3 + 2)) with (3 * k + 2)%nat by lia.
  rewrite Hx, Hy, Hz. reflexivity.
Qed.

End TerrainBuffers.

(** ** More on tree placement *)

Section TreesMore.

Import Trees.

Variable noise : R -> R -> R.
Variable Group : Type.
Variables createPineTree createBroadleafTree createSimpleTree : Rand Group.

Local Abbreviation treeTypeIndex :=
  (Trees.treeTypeIndex Group createPineTree createBroadleafTree
                       createSimpleTree).
Local Abbreviation placeTree :=
  (Trees.placeTree noise Group createPineTree createBroadleafTree
                   createSimpleTree).
Local Abbreviation createProceduralTrees :=
  (Trees.createProceduralTrees noise Group createPineTree createBroadleafTree
                               createSimpleTree).

Lemma floor_between (v : R) (q : Z) :
  IZR q <= v < IZR q + 1 -> JS.floor v = q.
Proof.
  intros Hv. unfold JS.floor. symmetry. apply Int_part_spec. lra.
Qed.

(** X20: Which constructor a kept candidate gets, by its noise value: the
  broadleaf tree (index [1]) below [1/3], the simple tree (index [2]) from
  [1/3] to below [1], and the pine tree (index [0]) only from [1] on, so
  that under a noise field bounded by [1] a pine needs the noise to be
  exactly [1]. *)
Theorem treeTypeIndex_by_noise (noiseValue : R) :
  - (3 / 10) <= noiseValue ->
  (noiseValue < 1 / 3 -> treeTypeIndex noiseValue = 1%Z)
  /\ (1 / 3 <= noiseValue < 1 -> treeTypeIndex noiseValue = 2%Z)
  /\ (1 <= noiseValue < 5 / 3 -> treeTypeIndex noiseValue = 0%Z)
  /\ (noiseValue <= 1 -> treeTypeIndex noiseValue = 0%Z -> noiseValue = 1).
Proof.
  intros Hlow. unfold Trees.treeTypeIndex.
  change (Z.of_nat (length (treeTypes Group createPineTree createBroadleafTree
                                      createSimpleTree))) with 3%Z.
  assert (H1 : noiseValue < 1 / 3 ->
               JS.floor ((noiseValue + 1) * (15 / 10)) = 1%Z).
  { intros Hn. apply floor_between. simpl. lra. }
  assert (H2 : 1 / 3 <= noiseValue < 1 ->
               JS.floor ((noiseValue + 1) * (15 / 10)) = 2%Z).
  { intros Hn. apply floor_between. simpl. lra. }
  assert (H3 : 1 <= noiseValue < 5 / 3 ->
               JS.floor ((noiseValue + 1) * (15 / 10)) = 3%Z).
  { intros Hn. apply floor_between. simpl. lra. }
  split; [ intros Hn; rewrite (H1 Hn); reflexivity | ].
  split; [ intros Hn; rewrite (H2 Hn); reflexivity | ].
  split; [ intros Hn; rewrite (H3 Hn); reflexivity | ].
  intros Hup Hzero.
  destruct (Rlt_dec noiseValue (1 / 3)) as [Ha | Ha].
  - rewrite (H1 Ha) in Hzero. discriminate.
  - destruct (Rlt_dec noiseValue 1) as [Hb | Hb].
    + rewrite H2 in Hzero by lra. discriminate.
    + lra.
Qed.

(** X21: [createProceduralTrees] returns the group it was given followed by
  the trees it adds, at most one for each iteration; it adds one in every
  iteration when the noise never falls below [-0.3] and none when the
  noise is always below [-0.3]. *)
Theorem createProceduralTrees_count (count : nat)
    (treesGroup : list (Tree Group)) (rs : RandomSource) :
  exists added,
    fst (createProceduralTrees count treesGroup rs)
    = Normal (treesGroup ++ added)
    /\ (length added <= count)%nat
    /\ ((forall u v, - (3 / 10) <= noise u v) -> length added = count)
    /\ ((forall u v, noise u v < - (3 / 10)) -> added = []).
Proof.
  revert treesGroup rs.
  induction count as [ | n IH ]; intros treesGroup rs.
  - exists []. rewrite app_nil_r. repeat split; auto.
  - pose proof (placeTree_cases noise Group createPineTree createBroadleafTree
                  createSimpleTree rs) as [Hdrop Hkeep].
    cbv zeta in Hdrop, Hkeep.
    set (nv := noise (fst (fst (candidate rs)) * (2 / 100))
                     (snd (fst (candidate rs)) * (2 / 100))) in *.
    cbn [Trees.createProceduralTrees]. unfold bind at 1.
    destruct (Rlt_dec nv (- (3 / 10))) as [Hlow | Hhigh].
    + rewrite (Hdrop Hlow).
      destruct (IH treesGroup (snd (candidate rs)))
        as [added [Hres [Hlen [Hall Hnone]]]].
      exists added. split; [ exact Hres | ].
      split; [ lia | ]. split; [ | exact Hnone ].
      intros Hnoise. specialize (Hnoise (fst (fst (candidate rs)) * (2 / 100))
                                        (snd (fst (candidate rs)) * (2 / 100))).
      fold nv in Hnoise. lra.
    + destruct (Hkeep Hhigh) as [tree Htree].
      destruct (placeTree rs) as [c rs'].
      simpl in Htree. subst c.
      destruct (IH (treesGroup ++ [tree]) rs')
        as [added [Hres [Hlen [Hall Hnone]]]].
      exists (tree :: added).
      split; [ rewrite Hres, <- app_assoc; reflexivity | ].
      split; [ simpl; lia | ].
      split.
      * intros Hnoise. simpl. rewrite (Hall Hnoise). reflexivity.
      * intros Hnoise. specialize (Hnoise (fst (fst (candidate rs)) * (2 / 100))
                                          (snd (fst (candidate rs)) * (2 / 100))).
        fold nv in Hnoise. contradiction.
Qed.

End TreesMore.

Section ModelsMore.

Import Trees.

Variable noise : R -> R -> R.
Variable Group : Type.
Variable treeModels : list Group.

Local Abbreviation placeGLTFTree :=
  (Trees.placeGLTFTree noise Group treeModels).

(** X22: With at least one tree model and draws in [[0, 1)], an iteration of
  [placeGLTFTrees] never throws: the model index is in range, a tree that
  is placed is one of the models, stands at height [0] and is scaled by
  [1] to [1.5] in x and z and by up to [0.3] more in y. *)
Theorem placeGLTFTree_in_range (rs : RandomSource) :
  in_unit rs ->
  treeModels <> [] ->
  exists placed,
    fst (placeGLTFTree rs) = Normal placed
    /\ forall tree, placed = Some tree ->
         In (group tree) treeModels
         /\ THREE.y (position tree) = 0
         /\ 1 <= THREE.x (scale tree) < 15 / 10
         /\ THREE.z (scale tree) = THREE.x (scale tree)
         /\ 0 <= THREE.y (scale tree) - THREE.x (scale tree) < 3 / 10.
Proof.
  intros Hrs Hmodels.
  unfold Trees.placeGLTFTree, bind, random, ret. simpl.
  destruct (JS.ltb _ _).
  - exists None. split; [ reflexivity | discriminate ].
  - assert (Hn : (0 < length treeModels)%nat).
    { destruct treeModels; [ contradiction | simpl; lia ]. }
    pose proof (floor_unit_range (rs 2%nat) (length treeModels) (Hrs 2%nat) Hn)
      as Hrange.
    set (q := JS.floor (rs 2%nat * INR (length treeModels))) in *.
    unfold JS.get.
    replace (q <? 0)%Z with false by (symmetry; apply Z.ltb_ge; lia).
    destruct (nth_error treeModels (Z.to_nat q)) as [ m | ] eqn:Hm;
      [ | apply nth_error_None in Hm; lia ].
    eexists. split; [ reflexivity | ].
    intros tree Htree. injection Htree as <-. simpl.
    pose proof (Hrs 4%nat) as H4. pose proof (Hrs 5%nat) as H5.
    split; [ apply (nth_error_In _ _ Hm) | ].
    repeat split; lra.
Qed.

End ModelsMore.

(** ** The clouds *)

Section SkyFacts.

Import Sky.

Lemma run_cons (delta : R) (clock : Clock) (calls : list (R * Clock))
    (s : State) :
  run ((delta, clock) :: calls) s = run calls (update delta clock s).
Proof. reflexivity. Qed.

Lemma drift_length (delta : R) (index : nat) (clock : Clock)
    (children : list THREE.Vector3) :
  length (drift delta index clock children) = length children.
Proof.
  revert index clock. induction children as [ | c rest IH ];
    intros index clock; simpl.
  - reflexivity.
  - rewrite IH. reflexivity.
Qed.

(** X23: Over a run of frames the clouds turn by [0.02] per unit of the summed
  delta, whatever the frames are; their number stays, and the sun is
  stored in the sky's user data from the first frame on. *)
Theorem run_rotation (calls : list (R * Clock)) (s : State) :
  rotationY (run calls s) = rotationY s + elapsed calls * (2 / 100)
  /\ length (clouds (run calls s)) = length (clouds s)
  /\ (calls <> [] -> sunStored (run calls s) = true).
Proof.
  revert s. induction calls as [ | [delta clock] calls IH ]; intros s.
  - simpl. split; [ ring | ]. split; [ reflexivity | ].
    intros Hne. contradiction.
  - rewrite run_cons. destruct (IH (update delta clock s)) as [Hrot [Hlen Hsun]].
    rewrite Hrot, Hlen. simpl.
    split; [ ring | ]. split; [ apply drift_length | ].
    intros _. destruct calls as [ | call calls ].
    + reflexivity.
    + apply Hsun. discriminate.
Qed.

Lemma drift_nth (delta : R) (index : nat) (clock : Clock)
    (children : list THREE.Vector3) (k : nat) (c : THREE.Vector3) :
  0 <= delta ->
  nth_error children k = Some c ->
  exists c',
    nth_error (drift delta index clock children) k = Some c'
    /\ THREE.y c' = THREE.y c
    /\ - (5 / 100 * delta) <= THREE.x c' - THREE.x c <= 5 / 100 * delta
    /\ - (5 / 100 * delta) <= THREE.z c' - THREE.z c <= 5 / 100 * delta.
Proof.
  intros Hdelta. revert index clock k.
  induction children as [ | c0 rest IH ]; intros index clock k Hk.
  - destruct k; discriminate.
  - destruct k as [ | k ]; simpl in Hk.
    + injection Hk as ->. eexists. simpl.
      split; [ reflexivity | ]. simpl.
      split; [ reflexivity | ].
      pose proof (SIN_bound (clock 0%nat * (1 / 10000) + INR index)) as Hs.
      pose proof (COS_bound (clock 1%nat * (1 / 10000) + INR index * (7 / 10)))
        as Hc.
      split; nra.
    + simpl. apply IH. exact Hk.
Qed.

(** X24: Over a run of frames with deltas that are not negative, a cloud keeps
  its height and moves by at most [0.05] per unit of the summed delta
  along x and along z. *)
Theorem run_cloud_drift (calls : list (R * Clock)) (s : State) (k : nat)
    (c : THREE.Vector3) :
  Forall (fun call => 0 <= fst call) calls ->
  nth_error (clouds s) k = Some c ->
  exists c',
    nth_error (clouds (run calls s)) k = Some c'
    /\ THREE.y c' = THREE.y c
    /\ - (5 / 100 * elapsed calls) <= THREE.x c' - THREE.x c
       <= 5 / 100 * elapsed calls
    /\ - (5 / 100 * elapsed calls) <= THREE.z c' - THREE.z c
       <= 5 / 100 * elapsed calls.
Proof.
  intros Hpos. revert s c.
  induction Hpos as [ | [delta clock] calls Hdelta _ IH ]; intros s c Hk.
  - exists c. simpl. split; [ exact Hk | ]. split; [ reflexivity | ].
    split; lra.
  - simpl in Hdelta. rewrite run_cons.
    destruct (drift_nth delta 0 clock (clouds s) k c Hdelta Hk)
      as [c1 [Hk1 [Hy1 [Hx1 Hz1]]]].
    destruct (IH (update delta clock s) c1 Hk1) as [c' [Hk' [Hy' [Hx' Hz']]]].
    exists c'. split; [ exact Hk' | ].
    split; [ rewrite Hy'; exact Hy1 | ].
    simpl. split; lra.
Qed.

End SkyFacts.

(** ** Movement *)

Section MainFacts.

Import Main.

Lemma keeps_refl (s : State) : keeps s s.
Proof. unfold keeps. repeat split; auto. Qed.

Lemma keeps_trans (s1 s2 s3 : State) :
  keeps s1 s2 -> keeps s2 s3 -> keeps s1 s3.
Proof.
  unfold keeps. intros H12 H23.
  destruct H12 as [A1 [A2 [A3 [A4 [A5 [A6 [A7 A8]]]]]]].
  destruct H23 as [B1 [B2 [B3 [B4 [B5 [B6 [B7 B8]]]]]]].
  repeat split; auto; congruence.
Qed.

Lemma readGamepad_keeps (entry : option Gamepad) (s : State) :
  keeps s (readGamepad entry s).
Proof.
  destruct entry as [ [ [ [ | x [ | y more ] ] | ] ] | ];
    try apply keeps_refl.
  unfold readGamepad, keeps. simpl.
  destruct (JS.gtb (Rabs x) (15 / 100)), (JS.ltb x 0), (JS.gtb x 0),
    (JS.gtb (Rabs y) (15 / 100)), (JS.ltb y 0), (JS.gtb y 0);
    simpl; repeat split; auto.
Qed.

Lemma updateControllers_keeps (delta : R) (gamepads : list (option Gamepad))
    (s : State) :
  keeps s (updateControllers delta gamepads s).
Proof.
  unfold updateControllers. revert s.
  induction gamepads as [ | entry rest IH ]; intros s; simpl.
  - apply keeps_refl.
  - apply (keeps_trans _ (readGamepad entry s)).
    + apply readGamepad_keeps.
    + apply IH.
Qed.

Lemma gtb_true (a b : R) : b < a -> JS.gtb a b = true.
Proof. intros Hab. unfold JS.gtb. apply ltb_true. exact Hab. Qed.

Lemma gtb_false (a b : R) : a <= b -> JS.gtb a b = false.
Proof. intros Hab. unfold JS.gtb. apply ltb_false. exact Hab. Qed.

Lemma readGamepad_centred (x y : R) (more : list R) (s : State) :
  Rabs x <= 15 / 100 -> Rabs y <= 15 / 100 ->
  readGamepad (stick x y more) s = s.
Proof.
  intros Hx Hy. unfold readGamepad, stick. simpl.
  rewrite !gtb_false by assumption. reflexivity.
Qed.

Lemma readGamepad_pushed (x y : R) (more : list R) (s : State) :
  (x < - (15 / 100) -> moveLeft (readGamepad (stick x y more) s) = true)
  /\ (15 / 100 < x -> moveRight (readGamepad (stick x y more) s) = true)
  /\ (y < - (15 / 100) -> moveForward (readGamepad (stick x y more) s) = true)
  /\ (15 / 100 < y -> moveBackward (readGamepad (stick x y more) s) = true).
Proof.
  unfold readGamepad, stick. simpl.
  repeat split; intros Hpush.
  - rewrite (gtb_true (Rabs x)) by (rewrite Rabs_left; lra).
    rewrite (ltb_true x 0) by lra.
    destruct (JS.gtb x 0), (JS.gtb (Rabs y) (15 / 100)), (JS.ltb y 0),
      (JS.gtb y 0); reflexivity.
  - rewrite (gtb_true (Rabs x)) by (rewrite Rabs_right; lra).
    rewrite (gtb_true x 0) by lra.
    destruct (JS.ltb x 0), (JS.gtb (Rabs y) (15 / 100)), (JS.ltb y 0),
      (JS.gtb y 0); reflexivity.
  - rewrite (gtb_true (Rabs y)) by (rewrite Rabs_left; lra).
    rewrite (ltb_true y 0) by lra.
    destruct (JS.gtb (Rabs x) (15 / 100)), (JS.ltb x 0), (JS.gtb x 0),
      (JS.gtb y 0); reflexivity.
  - rewrite (gtb_true (Rabs y)) by (rewrite Rabs_right; lra).
    rewrite (gtb_true y 0) by lra.
    destruct (JS.gtb (Rabs x) (15 / 100)), (JS.ltb x 0), (JS.gtb x 0),
      (JS.ltb y 0); reflexivity.
Qed.

(** X25: [updateControllers] only ever sets movement flags: a flag that is set
  stays set whatever the gamepads report, and nothing else changes.  A
  stick pushed beyond the dead zone of [0.15] sets the flag of its
  direction; when every gamepad is absent, has fewer than two axes or has
  its stick within the dead zone, the state is left as it was, so a flag
  set by a push is still set after the stick is released. *)
Theorem updateControllers_sets_only (delta : R)
    (gamepads : list (option Gamepad)) (s : State) :
  keeps s (updateControllers delta gamepads s)
  /\ (forall x y more,
        In (stick x y more) gamepads ->
        (x < - (15 / 100) ->
         moveLeft (updateControllers delta gamepads s) = true)
        /\ (15 / 100 < x ->
            moveRight (updateControllers delta gamepads s) = true)
        /\ (y < - (15 / 100) ->
            moveForward (updateControllers delta gamepads s) = true)
        /\ (15 / 100 < y ->
            moveBackward (updateControllers delta gamepads s) = true))
  /\ ((forall x y more,
         In (stick x y more) gamepads ->
         Rabs x <= 15 / 100 /\ Rabs y <= 15 / 100) ->
      updateControllers delta gamepads s = s).
Proof.
  split; [ apply updateControllers_keeps | ].
  split.
  - revert s. induction gamepads as [ | entry rest IH ];
      intros s x y more Hin; [ destruct Hin | ].
    change (updateControllers delta (entry :: rest) s)
      with (updateControllers delta rest (readGamepad entry s)).
    destruct Hin as [Hhere | Hlater]; [ | apply (IH _ x y more Hlater) ].
    subst entry.
    destruct (readGamepad_pushed x y more s) as [Hl [Hr [Hf Hb]]].
    destruct (updateControllers_keeps delta rest (readGamepad (stick x y more) s))
      as [Kf [Kb [Kl [Kr _]]]].
    repeat split; intros Hpush; auto.
  - revert s. induction gamepads as [ | entry rest IH ]; intros s Hall;
      [ reflexivity | ].
    change (updateControllers delta (entry :: rest) s)
      with (updateControllers delta rest (readGamepad entry s)).
    assert (Hentry : readGamepad entry s = s).
    { destruct entry as [ [ [ [ | x [ | y more ] ] | ] ] | ]; try reflexivity.
      destruct (Hall x y more (or_introl eq_refl)) as [Hx Hy].
      apply (readGamepad_centred x y more s Hx Hy). }
    rewrite Hentry. apply IH.
    intros x y more Hin. apply (Hall x y more). right. exact Hin.
Qed.

End MainFacts.

Section MovementFacts.

Import Main.

(** The horizontal direction that [updatePlayerMovement] moves along. *)
Local Abbreviation horizontal wd :=
  (THREE.normalize (THREE.mkVector3 (THREE.x wd) 0 (THREE.z wd))).

Lemma horizontal_y (wd : THREE.Vector3) : THREE.y (horizontal wd) = 0.
Proof. unfold THREE.normalize, THREE.multiplyScalar. simpl. ring. Qed.

Lemma velocity_y (delta : R) (d : THREE.Vector3) (s : State) :
  THREE.y d = 0 -> THREE.y (velocity delta d s) = 0.
Proof.
  intros Hd. unfold velocity.
  destruct (moveForward s), (moveBackward s), (moveRight s), (moveLeft s);
    simpl; rewrite ?Hd; ring.
Qed.

Lemma lengthSq_not_positive (v : THREE.Vector3) :
  ~ 0 < THREE.lengthSq v -> v = THREE.mkVector3 0 0 0.
Proof.
  destruct v as [a b c]. unfold THREE.lengthSq. simpl. intros Hv.
  assert (Ha : a = 0) by nra.
  assert (Hb : b = 0) by nra.
  assert (Hc : c = 0) by nra.
  subst. reflexivity.
Qed.

Lemma add_zero (v : THREE.Vector3) : THREE.add v (THREE.mkVector3 0 0 0) = v.
Proof. destruct v. unfold THREE.add. simpl. f_equal; ring. Qed.

Lemma updatePlayerMovement_moves (delta : R) (wd : THREE.Vector3) (s : State)
    (pos : THREE.Vector3) :
  player s = Some pos ->
  let v := velocity delta (horizontal wd) s in
  updatePlayerMovement delta wd s
  = mkState (moveForward s) (moveBackward s) (moveLeft s) (moveRight s)
            v (horizontal wd) (Some (THREE.add pos v))
            (THREE.add (camera s) v).
Proof.
  intros Hp. cbv zeta. unfold updatePlayerMovement. rewrite Hp.
  unfold JS.gtb, JS.ltb.
  destruct (Rlt_dec 0 (THREE.lengthSq (velocity delta (horizontal wd) s)))
    as [Hmove | Hstill]; [ reflexivity | ].
  rewrite (lengthSq_not_positive _ Hstill), !add_zero. reflexivity.
Qed.

(** X26: [updatePlayerMovement] does nothing without a player; with one it
  moves the player and the camera by the same vector, which is
  horizontal, so that both keep their height and their offset to each
  other; it leaves the movement flags as they are. *)
Theorem updatePlayerMovement_rigid (delta : R) (wd : THREE.Vector3)
    (s : State) :
  (player s = None -> updatePlayerMovement delta wd s = s)
  /\ (forall pos, player s = Some pos ->
      exists v,
        THREE.y v = 0
        /\ playerVelocity (updatePlayerMovement delta wd s) = v
        /\ player (updatePlayerMovement delta wd s) = Some (THREE.add pos v)
        /\ camera (updatePlayerMovement delta wd s) = THREE.add (camera s) v
        /\ moveForward (updatePlayerMovement delta wd s) = moveForward s
        /\ moveBackward (updatePlayerMovement delta wd s) = moveBackward s
        /\ moveLeft (updatePlayerMovement delta wd s) = moveLeft s
        /\ moveRight (updatePlayerMovement delta wd s) = moveRight s).
Proof.
  split.
  - intros Hnone. unfold updatePlayerMovement. rewrite Hnone. reflexivity.
  - intros pos Hp. rewrite (updatePlayerMovement_moves delta wd s pos Hp).
    exists (velocity delta (horizontal wd) s). simpl.
    split; [ apply velocity_y; apply horizontal_y | ].
    repeat split.
Qed.

(** X27: Opposite flags cancel: when forward and backward are both set or both
  clear, and left and right likewise, the player and the camera stay
  where they are. *)
Theorem updatePlayerMovement_cancel (delta : R) (wd : THREE.Vector3)
    (s : State) :
  moveForward s = moveBackward s ->
  moveLeft s = moveRight s ->
  player (updatePlayerMovement delta wd s) = player s
  /\ camera (updatePlayerMovement delta wd s) = camera s.
Proof.
  intros Hfb Hlr.
  destruct (player s) as [ pos | ] eqn:Hp.
  - rewrite (updatePlayerMovement_moves delta wd s pos Hp). simpl.
    assert (Hv : velocity delta (horizontal wd) s = THREE.mkVector3 0 0 0).
    { unfold velocity. rewrite Hfb, Hlr.
      destruct (moveBackward s), (moveRight s);
        unfold THREE.add, THREE.multiplyScalar; simpl; f_equal; ring. }
    rewrite Hv, !add_zero. split; reflexivity.
  - unfold updatePlayerMovement. rewrite Hp. split; [ exact Hp | reflexivity ].
Qed.

Lemma horizontal_unit (wd : THREE.Vector3) :
  THREE.x wd <> 0 \/ THREE.z wd <> 0 ->
  THREE.x (horizontal wd) * THREE.x (horizontal wd)
  + THREE.z (horizontal wd) * THREE.z (horizontal wd) = 1.
Proof.
  intros Hwd. unfold THREE.normalize, THREE.length, THREE.lengthSq. simpl.
  set (q := THREE.x wd * THREE.x wd + 0 * 0 + THREE.z wd * THREE.z wd).
  assert (Hq : 0 < q).
  { subst q. destruct Hwd as [Hx | Hz].
    - pose proof (Rsqr_pos_lt _ Hx) as Hs. unfold Rsqr in Hs. nra.
    - pose proof (Rsqr_pos_lt _ Hz) as Hs. unfold Rsqr in Hs. nra. }
  pose proof (sqrt_lt_R0 q Hq) as Hl.
  pose proof (sqrt_sqrt q (Rlt_le _ _ Hq)) as Hll.
  destruct (Req_dec_T (sqrt q) 0) as [Hzero | Hnz]; [ lra | ].
  set (l := sqrt q) in *.
  replace (THREE.x wd * (1 / l) * (THREE.x wd * (1 / l))
           + THREE.z wd * (1 / l) * (THREE.z wd * (1 / l)))
    with (q / (l * l)) by (subst q; field; lra).
  rewrite Hll. field. lra.
Qed.

Lemma horizontal_vertical_look (wd : THREE.Vector3) :
  THREE.x wd = 0 -> THREE.z wd = 0 ->
  horizontal wd = THREE.mkVector3 0 0 0.
Proof.
  intros Hx Hz. unfold THREE.normalize, THREE.multiplyScalar. simpl.
  rewrite Hx, Hz. f_equal; ring.
Qed.

(** X28: How far one frame moves the player, for a camera that does not look
  straight up or down: by [moveSpeed * delta] with the forward flag
  alone, and by the square root of two times that with the forward and
  the right flag together (the squared lengths are [25 delta^2] and
  [50 delta^2]).  A camera that looks straight up or down does not move
  the player at all. *)
Theorem updatePlayerMovement_speed (delta : R) (wd : THREE.Vector3)
    (s : State) (pos : THREE.Vector3) :
  player s = Some pos ->
  (THREE.x wd <> 0 \/ THREE.z wd <> 0 ->
   moveBackward s = false -> moveLeft s = false -> moveForward s = true ->
   (moveRight s = false ->
    THREE.lengthSq (playerVelocity (updatePlayerMovement delta wd s))
    = (moveSpeed * delta) * (moveSpeed * delta))
   /\ (moveRight s = true ->
       THREE.lengthSq (playerVelocity (updatePlayerMovement delta wd s))
       = 2 * ((moveSpeed * delta) * (moveSpeed * delta))))
  /\ (THREE.x wd = 0 -> THREE.z wd = 0 ->
      player (updatePlayerMovement delta wd s) = Some pos
      /\ camera (updatePlayerMovement delta wd s) = camera s).
Proof.
  intros Hp. rewrite (updatePlayerMovement_moves delta wd s pos Hp). simpl.
  split.
  - intros Hwd Hb Hl Hf.
    pose proof (horizontal_unit wd Hwd) as Hunit.
    pose proof (horizontal_y wd) as Hy.
    unfold velocity. rewrite Hb, Hl, Hf.
    set (d := horizontal wd) in *.
    destruct d as [dx dy dz]. simpl in Hunit, Hy. subst dy.
    split; intros Hr; rewrite Hr;
      unfold THREE.lengthSq, THREE.add, THREE.multiplyScalar,
        THREE.crossVectors; simpl.
    + replace ((0 + dx * (moveSpeed * delta)) * (0 + dx * (moveSpeed * delta))
               + (0 + 0 * (moveSpeed * delta)) * (0 + 0 * (moveSpeed * delta))
               + (0 + dz * (moveSpeed * delta)) * (0 + dz * (moveSpeed * delta)))
        with ((dx * dx + dz * dz) * (moveSpeed * delta * (moveSpeed * delta)))
        by ring.
      rewrite Hunit. ring.
    + match goal with
      | |- ?lhs = _ =>
          replace lhs
            with (2 * (dx * dx + dz * dz)
                  * (moveSpeed * delta * (moveSpeed * delta))) by ring
      end.
      rewrite Hunit. ring.
  - intros Hx Hz. rewrite (horizontal_vertical_look wd Hx Hz).
    assert (Hv : velocity delta (THREE.mkVector3 0 0 0) s
                 = THREE.mkVector3 0 0 0).
    { unfold velocity.
      destruct (moveForward s), (moveBackward s), (moveRight s), (moveLeft s);
        unfold THREE.add, THREE.multiplyScalar, THREE.crossVectors; simpl;
        f_equal; ring. }
    rewrite Hv, !add_zero. split; reflexivity.
Qed.

End MovementFacts.

(** ** The further properties on the sample scenes *)

Lemma zeros_in_unit : in_unit zeros.
Proof. intros n. unfold zeros. lra. Qed.

Lemma sample_start_time :
  DayNight.getTimeOfDay (DayNight.update Samples.lookAt 0 Samples.cycle)
  = 1 / 2.
Proof.
  rewrite (timeOfDay_update_running unit Samples.lookAt 0 Samples.cycle
             eq_refl).
  simpl. rewrite rem_one_nonneg by lra. unfold frac_part.
  rewrite Int_part_small by lra. simpl. lra.
Qed.

Lemma update_steps_add_witness :
  DayNight.params
    (DayNight.update Samples.lookAt 30
       (DayNight.update Samples.lookAt 30 Samples.cycle))
  = DayNight.params (DayNight.update Samples.lookAt (30 + 30) Samples.cycle).
Proof.
  refine (proj1 (update_steps_add unit Samples.lookAt 30 30 Samples.cycle
                   _ _ _ _ _)).
  - reflexivity.
  - simpl. lra.
  - simpl. lra.
  - lra.
  - lra.
Defined.

Lemma update_whole_cycles_witness :
  DayNight.getTimeOfDay
    (DayNight.update Samples.lookAt
       (INR 3 * DayNight.dayDuration (DayNight.params Samples.cycle))
       Samples.cycle)
  = DayNight.getTimeOfDay Samples.cycle.
Proof.
  apply update_whole_cycles.
  - reflexivity.
  - simpl. lra.
  - unfold DayNight.getTimeOfDay. simpl. lra.
Defined.

(** At the starting time [0.5] the sun light is off. *)
Lemma update_second_half_is_night_witness :
  DayNight.intensity
    (DayNight.sunLight (DayNight.update Samples.lookAt 0 Samples.cycle)) = 0.
Proof.
  refine (proj1 (update_second_half_is_night unit Samples.lookAt 0
                   Samples.cycle _ _)).
  - reflexivity.
  - rewrite sample_start_time. lra.
Defined.

Lemma update_intensity_bounds_witness :
  0 <= DayNight.intensity
         (DayNight.sunLight (DayNight.update Samples.lookAt 60 Samples.cycle))
    <= 25 / 10.
Proof.
  refine (proj1 (update_intensity_bounds unit Samples.lookAt 60 Samples.cycle
                   _ _)).
  - apply DayNight.reach_setup.
  - reflexivity.
Defined.

Lemma update_stars_opacity_witness :
  exists st opacity,
    DayNight.stars (DayNight.update Samples.lookAt 60 Samples.cycle) = Some st
    /\ DayNight.material st = Some opacity
    /\ 0 <= opacity <= 1
    /\ (DayNight.visible st = true <-> 0 < opacity).
Proof.
  eexists. eexists.
  split; [ reflexivity | ]. split; [ reflexivity | ].
  apply (update_stars_opacity unit Samples.lookAt 60 Samples.cycle);
    reflexivity.
Defined.

Lemma update_sun_moon_opposite_witness :
  THREE.z (DayNight.position
             (DayNight.sunLight
                (DayNight.update Samples.lookAt 60 Samples.cycle))) = 1.
Proof.
  refine (proj2 (proj2 (update_sun_moon_opposite unit Samples.lookAt 60
                          Samples.cycle _))).
  reflexivity.
Defined.


Lemma adjustWindForElevation_volume_witness :
  exists v,
    Audio.adjustWindForElevation 30 (Audio.setupAudio Audio.initial)
    = Audio.mkState
        (Audio.birds (Audio.setupAudio Audio.initial))
        (Some (Audio.setVolume v (Audio.mkAudioSource (3 / 10) true true true)))
        (Audio.nightSource (Audio.setupAudio Audio.initial))
        (Audio.footsteps (Audio.setupAudio Audio.initial))
        (Audio.dayNightState (Audio.setupAudio Audio.initial))
    /\ v = 7 / 10.
Proof.
  destruct (proj2 (adjustWindForElevation_volume 30
                     (Audio.setupAudio Audio.initial))
              (Audio.mkAudioSource (3 / 10) true true true) eq_refl)
    as [v [Hstate [_ [_ [_ Hhigh]]]]].
  exists v. split; [ exact Hstate | apply Hhigh; lra ].
Defined.

Lemma updateAudioForTimeOfDay_state_witness :
  Audio.updateAudioForTimeOfDay (1 / 4) Audio.initial = Audio.initial
  /\ Audio.wind
       (Audio.updateAudioForTimeOfDay (1 / 4) (Audio.setupAudio Audio.initial))
     = Audio.wind (Audio.setupAudio Audio.initial).
Proof.
  split.
  - apply (proj2 (updateAudioForTimeOfDay_state (1 / 4) Audio.initial)).
    left. reflexivity.
  - apply (proj1 (updateAudioForTimeOfDay_state (1 / 4)
                    (Audio.setupAudio Audio.initial))
             (Audio.mkAudioSource (5 / 10) true true true)
             (Audio.mkAudioSource 0 true true true) eq_refl eq_refl).
Defined.

Lemma playFootstepSounds_starts_witness :
  Audio.playFootstepSounds true Audio.initial = Audio.initial
  /\ Audio.footsteps
       (Audio.playFootstepSounds true (Audio.setupAudio Audio.initial))
     = Some (Audio.mkAudioSource (7 / 10) false true true).
Proof.
  split.
  - apply (proj1 (proj2 (playFootstepSounds_starts true Audio.initial))).
    reflexivity.
  - rewrite (proj1 (playFootstepSounds_starts true
                      (Audio.setupAudio Audio.initial))
               (Audio.mkAudioSource (7 / 10) false true false) eq_refl).
    reflexivity.
Defined.

Lemma frames_last_pose_witness :
  exists h',
    Player.hand 1
      (Player.frames [[Samples.grip0; Samples.grip1]; [Samples.grip0]]
                     Player.createPlayer) = Some h'
    /\ h' = Player.follow Samples.grip1 (Player.rightHand Player.createPlayer)
    /\ Player.scale h' = Player.scale (Player.rightHand Player.createPlayer).
Proof.
  apply (frames_last_pose [[Samples.grip0; Samples.grip1]; [Samples.grip0]]
           Player.createPlayer 1%nat
           (Player.rightHand Player.createPlayer) eq_refl).
Defined.

Lemma update_orbit_witness :
  exists f,
    nth_error (Fireflies.update 0 5000 Samples.swarm) 1 = Some f
    /\ - (1 / 2)
       <= THREE.y (Fireflies.position f)
          - Fireflies.originalY (Fireflies.userData f)
       <= 1 / 2.
Proof.
  eexists. split; [ reflexivity | ].
  apply (proj1 (proj2 (update_orbit 0 5000 Samples.swarm 1%nat _ eq_refl))).
Defined.

Lemma createFireflies_ranges_witness :
  length (fst (Fireflies.createFireflies 3 zeros)) = 3%nat.
Proof.
  apply (proj1 (createFireflies_ranges 3 zeros zeros_in_unit)).
Defined.

Lemma applyHeightMap_elevation_bound_witness :
  length (fst (Terrain.applyHeightMap Samples.flatNoise [100; 7; 0] 5 zeros))
  = length [100; 7; 0].
Proof.
  refine (proj1 (applyHeightMap_elevation_bound Samples.flatNoise [100; 7; 0]
                   5 zeros _ _)).
  - intros u v. unfold Samples.flatNoise. lra.
  - lra.
Defined.

Lemma applyTerrainColors_vertices_witness :
  length (fst (Terrain.applyTerrainColors Scenes.plane zeros))
  = (3 * (length Scenes.plane / 3))%nat.
Proof.
  apply (proj1 (applyTerrainColors_vertices Scenes.plane zeros zeros_in_unit)).
Defined.

Lemma vertexColor_ranges_witness :
  Terrain.vertexColor 7 zeros = (THREE.ColorHex 0x7cad6d, zeros).
Proof.
  apply (proj2 (proj2 (proj2 (vertexColor_ranges 7 zeros zeros_in_unit)))).
  lra.
Defined.

Lemma createLowPolyPlane_jitter_witness :
  exists x' z',
    nth_error (fst (Terrain.createLowPolyPlane Scenes.plane zeros)) (3 * 1)
    = Some x'
    /\ nth_error (fst (Terrain.createLowPolyPlane Scenes.plane zeros))
                 (3 * 1 + 1) = Some 5
    /\ nth_error (fst (Terrain.createLowPolyPlane Scenes.plane zeros))
                 (3 * 1 + 2) = Some z'
    /\ - (1 / 4) <= x' - 4 <= 1 / 4
    /\ - (1 / 4) <= z' - 6 <= 1 / 4
    /\ ((1 mod 3)%nat <> 0%nat -> x' = 4 /\ z' = 6).
Proof.
  apply (createLowPolyPlane_jitter Scenes.plane zeros 1%nat 4 5 6
           zeros_in_unit eq_refl eq_refl eq_refl).
Defined.

Lemma randomGroundVertex_in_range_witness :
  exists (k : nat) (x y z : R),
    fst (Terrain.randomGroundVertex Scenes.plane zeros)
    = (Some x, Some y, Some z)
    /\ (k < 2)%nat
    /\ Z.of_nat k = Int_part (zeros 0%nat * INR 2)
    /\ nth_error Scenes.plane (3 * k) = Some x
    /\ nth_error Scenes.plane (3 * k + 1) = Some y
    /\ nth_error Scenes.plane (3 * k + 2) = Some z.
Proof.
  apply (randomGroundVertex_in_range Scenes.plane zeros 2 zeros_in_unit
           eq_refl).
  lia.
Defined.

Lemma treeTypeIndex_by_noise_witness :
  Trees.treeTypeIndex nat Samples.pine Samples.broadleaf Samples.simple 0
  = 1%Z.
Proof.
  refine (proj1 (treeTypeIndex_by_noise nat Samples.pine Samples.broadleaf
                   Samples.simple 0 _) _); lra.
Defined.

Lemma createProceduralTrees_count_witness :
  exists added,
    fst (Trees.createProceduralTrees Scenes.deepNoise nat Samples.pine
           Samples.broadleaf Samples.simple 5 [] zeros)
    = Trees.Normal ([] ++ added)
    /\ added = [].
Proof.
  destruct (createProceduralTrees_count Scenes.deepNoise nat Samples.pine
              Samples.broadleaf Samples.simple 5 [] zeros)
    as [added [Hres [_ [_ Hnone]]]].
  exists added. split; [ exact Hres | ].
  apply Hnone. intros u v. unfold Scenes.deepNoise. lra.
Defined.

Lemma placeGLTFTree_in_range_witness :
  exists placed,
    fst (Trees.placeGLTFTree Samples.flatNoise nat Scenes.models zeros)
    = Trees.Normal placed.
Proof.
  destruct (placeGLTFTree_in_range Samples.flatNoise nat Scenes.models zeros
              zeros_in_unit) as [placed [Hres _]].
  - discriminate.
  - exists placed. exact Hres.
Defined.

Lemma run_rotation_witness :
  Sky.sunStored
    (Sky.run [(1, Scenes.stillClock); (2, Scenes.stillClock)] Scenes.sky)
  = true.
Proof.
  apply (proj2 (proj2 (run_rotation
                         [(1, Scenes.stillClock); (2, Scenes.stillClock)]
                         Scenes.sky))).
  discriminate.
Defined.

Lemma run_cloud_drift_witness :
  exists c',
    nth_error
      (Sky.clouds
         (Sky.run [(1, Scenes.stillClock); (2, Scenes.stillClock)] Scenes.sky))
      1
    = Some c'
    /\ THREE.y c' = 60.
Proof.
  destruct (run_cloud_drift [(1, Scenes.stillClock); (2, Scenes.stillClock)]
              Scenes.sky 1%nat (THREE.mkVector3 0 60 100))
    as [c' [Hk [Hy _]]].
  - repeat constructor; simpl; lra.
  - reflexivity.
  - exists c'. split; [ exact Hk | exact Hy ].
Defined.

Lemma updateControllers_sets_only_witness :
  Main.moveLeft
    (Main.updateControllers (1 / 60) [Main.stick (-1) 0 []; None] Scenes.idle)
  = true
  /\ Main.updateControllers (1 / 60) [Main.stick 0 0 []] Scenes.walker
     = Scenes.walker.
Proof.
  split.
  - apply (proj1 (proj1 (proj2 (updateControllers_sets_only (1 / 60)
                                  [Main.stick (-1) 0 []; None] Scenes.idle))
                    (-1) 0 [] (or_introl eq_refl))).
    lra.
  - apply (proj2 (proj2 (updateControllers_sets_only (1 / 60)
                           [Main.stick 0 0 []] Scenes.walker))).
    intros x y more [Hin | []].
    injection Hin as <- <- _. rewrite Rabs_R0. lra.
Defined.

Lemma updatePlayerMovement_rigid_witness :
  exists v,
    THREE.y v = 0
    /\ Main.player (Main.updatePlayerMovement (1 / 60) Scenes.ahead
                      Scenes.walker)
       = Some (THREE.add (THREE.mkVector3 0 0 0) v)
    /\ Main.camera (Main.updatePlayerMovement (1 / 60) Scenes.ahead
                      Scenes.walker)
       = THREE.add (Main.camera Scenes.walker) v.
Proof.
  destruct (proj2 (updatePlayerMovement_rigid (1 / 60) Scenes.ahead
                     Scenes.walker) (THREE.mkVector3 0 0 0) eq_refl)
    as [v [Hy [_ [Hp [Hc _]]]]].
  exists v. repeat split; assumption.
Defined.

Lemma updatePlayerMovement_cancel_witness :
  Main.player (Main.updatePlayerMovement (1 / 60) Scenes.ahead Scenes.torn)
  = Main.player Scenes.torn.
Proof.
  apply (proj1 (updatePlayerMovement_cancel (1 / 60) Scenes.ahead Scenes.torn
                  eq_refl eq_refl)).
Defined.

Lemma updatePlayerMovement_speed_witness :
  THREE.lengthSq
    (Main.playerVelocity
       (Main.updatePlayerMovement (1 / 60) Scenes.ahead Scenes.walker))
  = (Main.moveSpeed * (1 / 60)) * (Main.moveSpeed * (1 / 60)).
Proof.
  refine (proj1 (proj1 (updatePlayerMovement_speed (1 / 60) Scenes.ahead
                          Scenes.walker (THREE.mkVector3 0 0 0) eq_refl)
                   _ eq_refl eq_refl eq_refl) eq_refl).
  right. simpl. lra.
Defined.
